(** * The micro-application viewer bridge (micro-app.tsx)

    A shallow embedding of the native bridge of [MicroAppViewer]: the
    message handler of the WebView, the token queue, the storage
    handlers, the file handlers and the loading / error flags, followed
    by the properties established about them.

    Conventions of the embedding.
    - A JavaScript value is a term of [js]; numbers are the integers.
    - A handler is a computation in the monad [M]: it reads and updates
      the component state, appends to a trace of effects, and either
      returns or throws.  An [await] is run to completion before the next
      handler starts.
    - The component state holds the React state variables, the two refs
      and the contents of AsyncStorage.
    - What the environment decides (the clock, whether a storage call
      fails, what the user presses) is an argument of the handler. *)

From stdpp Require Import gmap strings list pretty.
From Stdlib Require Import Ascii.

Open Scope string_scope.

(** ** JavaScript values *)

Set Warnings "-register-all".

Module JS.

Inductive js : Type :=
| JUndefined
| JNull
| JBool (b : bool)
| JNum (n : Z)
| JStr (s : string)
| JArr (items : list js)
| JObj (fields : list (string * js)).

(** What is thrown: an [Error] object (with its [name] and [message]) or
    any other value. *)
Inductive thrown : Type :=
| ErrorObject (name message : string)
| NonError (v : js).

(** [error instanceof Error ? error.message : fallback] *)
Definition message_or (fallback : string) (error : thrown) : string :=
  match error with
  | ErrorObject _ message => message
  | NonError _ => fallback
  end.

(** ToBoolean. *)
Definition truthy (v : js) : bool :=
  match v with
  | JUndefined | JNull => false
  | JBool b => b
  | JNum n => negb (n =? 0)%Z
  | JStr s => negb (String.eqb s EmptyString)
  | JArr _ | JObj _ => true
  end.

(** Own properties of an object built by [JSON.parse]; the names are
    distinct, the first binding is the property. *)
Fixpoint lookup_field (name : string) (fields : list (string * js)) : js :=
  match fields with
  | [] => JUndefined
  | (k, v) :: rest => if String.eqb k name then v else lookup_field name rest
  end.

(** [v.name] for the property names the bridge reads ([topic], [data],
    [key], ...): none of them is a built-in property of a primitive or
    of an array.  Reading a property of [undefined] or [null] throws a
    TypeError (the wording of its message is the engine's). *)
Definition get_prop (v : js) (name : string) : thrown + js :=
  match v with
  | JUndefined =>
      inl (ErrorObject "TypeError"
             ("Cannot read property '" +:+ name +:+ "' of undefined"))
  | JNull =>
      inl (ErrorObject "TypeError"
             ("Cannot read property '" +:+ name +:+ "' of null"))
  | JObj fields => inr (lookup_field name fields)
  | _ => inr JUndefined
  end.

(** [a === s] for a string [s]. *)
Definition strict_eq_string (a : js) (s : string) : bool :=
  match a with
  | JStr t => String.eqb t s
  | _ => false
  end.

Definition join_with (sep : string) (parts : list string) : string :=
  match parts with
  | [] => EmptyString
  | p :: ps => fold_left (fun acc q => acc +:+ sep +:+ q) ps p
  end.

(** ToString, as a template literal applies it. *)
Fixpoint to_string (v : js) : string :=
  match v with
  | JUndefined => "undefined"
  | JNull => "null"
  | JBool true => "true"
  | JBool false => "false"
  | JNum n => pretty n
  | JStr s => s
  | JArr items =>
      join_with ","
        (map (fun x => match x with
                       | JUndefined | JNull => EmptyString
                       | _ => to_string x
                       end) items)
  | JObj _ => "[object Object]"
  end.

(** What the receiving side reads back from [JSON.stringify(v)] spliced
    into a script: properties holding [undefined] are dropped, an
    [undefined] array element becomes [null], and a bare [undefined]
    stays [undefined]. *)
Fixpoint via_json (v : js) : js :=
  match v with
  | JArr items =>
      JArr (map (fun x => match x with
                          | JUndefined => JNull
                          | _ => via_json x
                          end) items)
  | JObj fields =>
      JObj ((fix go (fs : list (string * js)) : list (string * js) :=
               match fs with
               | [] => []
               | (k, JUndefined) :: rest => go rest
               | (k, x) :: rest => (k, via_json x) :: go rest
               end) fields)
  | _ => v
  end.

(** [haystack.includes(needle)] *)
Fixpoint includes (haystack needle : string) : bool :=
  String.prefix needle haystack ||
  match haystack with
  | EmptyString => false
  | String _ rest => includes rest needle
  end.

(** A default parameter value: used when the argument is [undefined]. *)
Definition default_to (fallback : string) (v : js) : js :=
  match v with
  | JUndefined => JStr fallback
  | _ => v
  end.

Definition dquote : string := String (ascii_of_nat 34) EmptyString.

End JS.
Export JS.

(** ** Route parameters, configuration and the topic table *)

(** [useLocalSearchParams()]: every parameter is a string or missing. *)
Record MicroAppParams : Type := {
  appId : option string;
  appName : option string;
  webViewUri : option string;
  clientId : option string;
  exchangedToken : option string;
}.

Record AppConfig : Type := {
  isDeveloper : bool;
  isTotp : bool;
  requiresAuth : bool;
  allowsFileAccess : bool;
}.

(** [x?.toString().includes(needle) || false] *)
Definition opt_includes (x : option string) (needle : string) : bool :=
  match x with
  | Some s => includes s needle
  | None => false
  end.

Definition appConfig (params : MicroAppParams) : AppConfig :=
  {| isDeveloper := opt_includes (appId params) "developer";
     isTotp := opt_includes (appId params) "totp";
     requiresAuth := negb (opt_includes (appId params) "public");
     allowsFileAccess := opt_includes (appId params) "file" |}.

(** A route parameter inside a template literal. *)
Definition param_to_string (x : option string) : string :=
  match x with
  | Some s => s
  | None => "undefined"
  end.

(** A route parameter used as a condition. *)
Definition param_truthy (x : option string) : bool :=
  match x with
  | Some s => negb (String.eqb s EmptyString)
  | None => false
  end.

(** The constants [TOPIC.*] imported from [@/utils/bridge].  The module is
    not part of the sources at hand, so the table is a parameter of the
    development. *)
Record TopicTable : Type := {
  TOKEN : string;
  QR_REQUEST : string;
  SAVE_LOCAL_DATA : string;
  GET_LOCAL_DATA : string;
  ALERT : string;
  CONFIRM_ALERT : string;
}.

(** Modelled from the spec: the [TOPIC] table of [@/utils/bridge], which is
    missing from the sources; each constant is the topic name listed among
    the recognized topics of the inbound envelope. *)
Definition spec_topics : TopicTable :=
  {| TOKEN := "TOKEN";
     QR_REQUEST := "QR_REQUEST";
     SAVE_LOCAL_DATA := "SAVE_LOCAL_DATA";
     GET_LOCAL_DATA := "GET_LOCAL_DATA";
     ALERT := "ALERT";
     CONFIRM_ALERT := "CONFIRM_ALERT" |}.

(** ** Effects *)

(** The script built by [sendResponseToWeb]:
    [if (window.nativebridge && window.nativebridge.method)
       window.nativebridge.method(argument)]. *)
Record Script : Type := GuardedCall {
  method : string;
  argument : js;
}.

(** An entry of [pendingTokenRequests.current].  The only function ever
    pushed is [sendTokenToWebView]; [request] is a ghost tag, the arrival
    number of the TOKEN message that pushed it. *)
Inductive Continuation : Type :=
| SendTokenToWebView (request : nat).

Inductive ButtonStyle : Type := StyleDefault | StyleCancel.

(** A button of [Alert.alert]; [onPress], when present, is
    [() => sendResponseToWeb(method, argument)]. *)
Record AlertButton : Type := {
  text : js;
  style : ButtonStyle;
  onPress : option (string * js);
}.

Inductive LogLevel : Type := LogWarn | LogError.

(** The second argument of a [console] call, if any. *)
Inductive LogDetail : Type :=
| NoDetail
| LoggedValue (v : js)
| LoggedError (e : thrown).

Inductive Event : Type :=
| Console (level : LogLevel) (label : string) (detail : LogDetail)
| InjectJavaScript (script : Script)
| AlertAlert (title message : js) (buttons : list AlertButton)
| WebViewReload
| Resolved (k : Continuation) (token : string).

(** ** Component state *)

Record State : Type := {
  isLoading : bool;
  hasError : bool;
  isScannerVisible : bool;
  authToken : option string;
  webUri : string;
  pendingTokenRequests : list Continuation;
  (** [webviewRef.current] is not null *)
  webviewRef : bool;
  (** the contents of AsyncStorage *)
  asyncStorage : gmap string string;
  (** ghost: the number of TOKEN messages queued so far *)
  tokenRequests : nat;
}.

Definition setIsLoading (b : bool) (st : State) : State :=
  {| isLoading := b; hasError := hasError st;
     isScannerVisible := isScannerVisible st; authToken := authToken st;
     webUri := webUri st; pendingTokenRequests := pendingTokenRequests st;
     webviewRef := webviewRef st; asyncStorage := asyncStorage st;
     tokenRequests := tokenRequests st |}.

Definition setHasError (b : bool) (st : State) : State :=
  {| isLoading := isLoading st; hasError := b;
     isScannerVisible := isScannerVisible st; authToken := authToken st;
     webUri := webUri st; pendingTokenRequests := pendingTokenRequests st;
     webviewRef := webviewRef st; asyncStorage := asyncStorage st;
     tokenRequests := tokenRequests st |}.

Definition setScannerVisible (b : bool) (st : State) : State :=
  {| isLoading := isLoading st; hasError := hasError st;
     isScannerVisible := b; authToken := authToken st;
     webUri := webUri st; pendingTokenRequests := pendingTokenRequests st;
     webviewRef := webviewRef st; asyncStorage := asyncStorage st;
     tokenRequests := tokenRequests st |}.

Definition setAuthToken (t : option string) (st : State) : State :=
  {| isLoading := isLoading st; hasError := hasError st;
     isScannerVisible := isScannerVisible st; authToken := t;
     webUri := webUri st; pendingTokenRequests := pendingTokenRequests st;
     webviewRef := webviewRef st; asyncStorage := asyncStorage st;
     tokenRequests := tokenRequests st |}.

Definition setWebUri (u : string) (st : State) : State :=
  {| isLoading := isLoading st; hasError := hasError st;
     isScannerVisible := isScannerVisible st; authToken := authToken st;
     webUri := u; pendingTokenRequests := pendingTokenRequests st;
     webviewRef := webviewRef st; asyncStorage := asyncStorage st;
     tokenRequests := tokenRequests st |}.

Definition setPending (q : list Continuation) (st : State) : State :=
  {| isLoading := isLoading st; hasError := hasError st;
     isScannerVisible := isScannerVisible st; authToken := authToken st;
     webUri := webUri st; pendingTokenRequests := q;
     webviewRef := webviewRef st; asyncStorage := asyncStorage st;
     tokenRequests := tokenRequests st |}.

Definition setWebviewRef (b : bool) (st : State) : State :=
  {| isLoading := isLoading st; hasError := hasError st;
     isScannerVisible := isScannerVisible st; authToken := authToken st;
     webUri := webUri st; pendingTokenRequests := pendingTokenRequests st;
     webviewRef := b; asyncStorage := asyncStorage st;
     tokenRequests := tokenRequests st |}.

Definition setStorage (m : gmap string string) (st : State) : State :=
  {| isLoading := isLoading st; hasError := hasError st;
     isScannerVisible := isScannerVisible st; authToken := authToken st;
     webUri := webUri st; pendingTokenRequests := pendingTokenRequests st;
     webviewRef := webviewRef st; asyncStorage := m;
     tokenRequests := tokenRequests st |}.

(** [pendingTokenRequests.current.push(sendTokenToWebView)] *)
Definition pushPending (st : State) : State :=
  {| isLoading := isLoading st; hasError := hasError st;
     isScannerVisible := isScannerVisible st; authToken := authToken st;
     webUri := webUri st;
     pendingTokenRequests :=
       pendingTokenRequests st ++ [SendTokenToWebView (tokenRequests st)];
     webviewRef := webviewRef st; asyncStorage := asyncStorage st;
     tokenRequests := S (tokenRequests st) |}.

(** ** The handler monad *)

Inductive outcome (A : Type) : Type :=
| Returned (a : A)
| Threw (e : thrown)
| OutOfFuel.
Arguments Returned {A} a.
Arguments Threw {A} e.
Arguments OutOfFuel {A}.

Record run (A : Type) : Type := Run {
  result : outcome A;
  final : State;
  trace : list Event;
}.
Arguments Run {A} result final trace.
Arguments result {A} r.
Arguments final {A} r.
Arguments trace {A} r.

Definition M (A : Type) : Type := State -> run A.

Definition ret {A} (a : A) : M A := fun st => Run (Returned a) st [].

Definition bind {A B} (m : M A) (f : A -> M B) : M B :=
  fun st =>
    let r := m st in
    match result r with
    | Returned a =>
        let r' := f a (final r) in
        Run (result r') (final r') (trace r ++ trace r')
    | Threw e => Run (Threw e) (final r) (trace r)
    | OutOfFuel => Run OutOfFuel (final r) (trace r)
    end.

Notation "'do' x <- m 'in' k" := (bind m (fun x => k))
  (at level 10, x name, m at level 100, k at level 200).
Notation "m >> k" := (bind m (fun _ => k))
  (at level 90, right associativity).

Definition throw {A} (e : thrown) : M A := fun st => Run (Threw e) st [].
Definition out_of_fuel {A} : M A := fun st => Run OutOfFuel st [].
Definition emit (e : Event) : M unit := fun st => Run (Returned tt) st [e].
Definition get_state : M State := fun st => Run (Returned st) st [].
Definition update (f : State -> State) : M unit :=
  fun st => Run (Returned tt) (f st) [].

(** [try { body } catch (error) { handler(error) }] *)
Definition try_catch {A} (body : M A) (handler : thrown -> M A) : M A :=
  fun st =>
    let r := body st in
    match result r with
    | Threw e =>
        let r' := handler e (final r) in
        Run (result r') (final r') (trace r ++ trace r')
    | _ => r
    end.

(** Lifting of a property read. *)
Definition read (v : js) (name : string) : M js :=
  match get_prop v name with
  | inl e => throw e
  | inr x => ret x
  end.

(** ** AsyncStorage *)

(** Whether the native storage call behind an [await] succeeds. *)
Inductive IoOutcome : Type :=
| IoDone
| IoFailed (e : thrown).

(** [AsyncStorage.setItem(key, value)].  The store holds strings only: the
    native module refuses any other value. *)
Definition AsyncStorage_setItem (io : IoOutcome) (key : string) (value : js)
  : M unit :=
  match io with
  | IoFailed e => throw e
  | IoDone =>
      match value with
      | JStr s => update (fun st => setStorage (<[key := s]> (asyncStorage st)) st)
      | _ => throw (ErrorObject "Error" "Values must be strings")
      end
  end.

(** [AsyncStorage.getItem(key)]: the stored string, or [null]. *)
Definition AsyncStorage_getItem (io : IoOutcome) (key : string) : M js :=
  match io with
  | IoFailed e => throw e
  | IoDone =>
      do st <- get_state in
      ret (match asyncStorage st !! key with
           | Some s => JStr s
           | None => JNull
           end)
  end.

(** ** The bridge *)

(** [event.nativeEvent.data], represented by what [JSON.parse] makes of
    it: a syntax error, or the decoded value. *)
Inductive MessageData : Type :=
| NotJSON (raw : string)
| JSONText (value : js).

Record WebViewMessageEvent : Type := {
  nativeEvent_data : MessageData;
}.

Definition JSON_parse (d : MessageData) : M js :=
  match d with
  | NotJSON _ => throw (ErrorObject "SyntaxError" "JSON Parse error")
  | JSONText v => ret v
  end.

(** The reply of the authentication service.  The demo issues
    [auth_token_${Date.now()}] on the spot; [Refused] stands for the
    service call of a real deployment failing inside the [try]. *)
Inductive AuthReply : Type :=
| Issued (now : Z)
| Refused (e : thrown).

Definition acquire (reply : AuthReply) : M string :=
  match reply with
  | Issued now => ret ("auth_token_" +:+ pretty now)
  | Refused e => throw e
  end.

(** The arm of the [switch] of [handleMessage] that is taken. *)
Inductive Case : Type :=
| CaseToken
| CaseQrRequest
| CaseSaveLocalData
| CaseGetLocalData
| CaseAlert
| CaseConfirmAlert
| CaseDownloadFile
| CaseUploadFile
| CaseDefault.

(** [sendResponseToWeb(method, data)]:
    [webviewRef.current?.injectJavaScript(script)]. *)
Definition sendResponseToWeb (method : string) (data : js) : M unit :=
  do st <- get_state in
  if webviewRef st
  then emit (InjectJavaScript (GuardedCall method (via_json data)))
  else ret tt.

(** [while (queue.length > 0) { const resolve = queue.shift(); resolve?.(token) }];
    [budget] bounds the number of iterations. *)
Fixpoint drain (call : Continuation -> string -> M unit) (budget : nat)
  (token : string) : M unit :=
  do st <- get_state in
  match pendingTokenRequests st with
  | [] => ret tt
  | resolve :: rest =>
      match budget with
      | 0 => out_of_fuel
      | S budget' =>
          update (setPending rest) >>
          call resolve token >>
          drain call budget' token
      end
  end.

(** [sendTokenToWebView(token)].  Every queued function is
    [sendTokenToWebView] itself, so draining the queue re-enters the
    function; [fuel] bounds the depth of these calls. *)
Fixpoint sendTokenToWebView_fuel (fuel : nat) (token : string) : M unit :=
  match fuel with
  | 0 => out_of_fuel
  | S fuel' =>
      if negb (truthy (JStr token)) then ret tt
      else
        sendResponseToWeb "resolveToken" (JStr token) >>
        drain (fun resolve token' =>
                 emit (Resolved resolve token') >>
                 sendTokenToWebView_fuel fuel' token')
              fuel' token
  end.

Definition sendTokenToWebView (token : string) : M unit :=
  fun st =>
    sendTokenToWebView_fuel (S (length (pendingTokenRequests st))) token st.

(** [handleAlert(title, message, buttonText = "OK")] *)
Definition handleAlert (title message buttonText : js) : M unit :=
  emit (AlertAlert title message
          [ {| text := default_to "OK" buttonText;
               style := StyleDefault;
               onPress := None |} ]).

(** [fetchAuthToken()] *)
Definition fetchAuthToken (reply : AuthReply) : M unit :=
  try_catch
    (do token <- acquire reply in
     update (setAuthToken (Some token)) >>
     sendTokenToWebView token)
    (fun error =>
       emit (Console LogError "Token fetch error:" (LoggedError error)) >>
       handleAlert (JStr "Authentication Error")
         (JStr "Failed to authenticate user. Please try again.") JUndefined).

(** [handleConfirmAlert(title, message, cancelText = "Cancel",
    confirmText = "Confirm")] *)
Definition handleConfirmAlert (title message cancelText confirmText : js)
  : M unit :=
  emit (AlertAlert title message
          [ {| text := default_to "Cancel" cancelText;
               style := StyleCancel;
               onPress := Some ("resolveConfirmAlert", JStr "cancel") |};
            {| text := default_to "Confirm" confirmText;
               style := StyleDefault;
               onPress := Some ("resolveConfirmAlert", JStr "confirm") |} ]).

(** The user presses a button of an alert. *)
Definition pressButton (b : AlertButton) : M unit :=
  match onPress b with
  | Some (method, data) => sendResponseToWeb method data
  | None => ret tt
  end.

(** [handleQrScanResult(qrData)] *)
Definition handleQrScanResult (qrData : js) : M unit :=
  sendResponseToWeb "resolveQrCode" qrData >>
  update (setScannerVisible false).

(** ** Content lifecycle *)

(** [handleWebViewError(syntheticEvent)] *)
Definition handleWebViewError (nativeEvent : js) : M unit :=
  emit (Console LogError "WebView error:" (LoggedValue nativeEvent)) >>
  update (setHasError true) >>
  update (setIsLoading false).

(** [reloadWebView()]: [webviewRef.current?.reload()] comes last. *)
Definition reloadWebView : M unit :=
  update (setHasError false) >>
  update (setIsLoading true) >>
  (do st <- get_state in
   if webviewRef st then emit WebViewReload else ret tt).

(** The "Set URL" button of [handleDeveloperUrlInput]. *)
Definition developerSetUrl (url : string) : M unit :=
  if truthy (JStr url)
  then update (setWebUri url) >> reloadWebView
  else ret tt.

(** The three states the flags stand for: [hasError] shows the error
    screen, otherwise [isLoading] shows the loading indicator. *)
Inductive Lifecycle : Type := Loading | Ready | Errored.

Definition lifecycle (st : State) : Lifecycle :=
  if hasError st then Errored
  else if isLoading st then Loading
  else Ready.

(** What [renderWebView()] returns. *)
Inductive Rendered : Type :=
| FileNotFound
| LocalWebView
| DeveloperWebView
| RemoteWebView
| NotAvailable.

Section Viewer.

Variable TOPIC : TopicTable.
Variable params : MicroAppParams.

(** The storage key of a micro-app entry: [`microapp_${appId}_${key}`]. *)
Definition storageKey (key : string) : string :=
  "microapp_" +:+ param_to_string (appId params) +:+ "_" +:+ key.

(** [handleSaveLocalData(key, value)] *)
Definition handleSaveLocalData (io : IoOutcome) (key value : js) : M unit :=
  try_catch
    (AsyncStorage_setItem io (storageKey (to_string key)) value >>
     sendResponseToWeb "resolveSaveLocalData" JUndefined)
    (fun error =>
       let errMessage := message_or "Storage error" error in
       sendResponseToWeb "rejectSaveLocalData" (JStr errMessage)).

(** [handleGetLocalData(key)] *)
Definition handleGetLocalData (io : IoOutcome) (key : js) : M unit :=
  try_catch
    (do value <- AsyncStorage_getItem io (storageKey (to_string key)) in
     sendResponseToWeb "resolveGetLocalData" (JObj [("value", value)]))
    (fun error =>
       let errMessage := message_or "Storage error" error in
       sendResponseToWeb "rejectGetLocalData" (JStr errMessage)).

(** [handleFileDownload(fileName, data)] *)
Definition handleFileDownload (fileName data : js) : M unit :=
  try_catch
    (if allowsFileAccess (appConfig params)
     then
       handleAlert (JStr "Download")
         (JStr ("File " +:+ dquote +:+ to_string fileName +:+ dquote
                +:+ " downloaded successfully.")) JUndefined >>
       sendResponseToWeb "resolveDownload"
         (JObj [("fileName", fileName); ("success", JBool true)])
     else throw (ErrorObject "Error" "File access not permitted for this app"))
    (fun error =>
       let errMessage := message_or "Download failed" error in
       sendResponseToWeb "rejectDownload" (JStr errMessage)).

(** The [case] labels of [handleMessage], compared with [===] in the order
    of the source. *)
Definition switch_topic (topic : js) : Case :=
  if strict_eq_string topic (TOKEN TOPIC) then CaseToken
  else if strict_eq_string topic (QR_REQUEST TOPIC) then CaseQrRequest
  else if strict_eq_string topic (SAVE_LOCAL_DATA TOPIC) then CaseSaveLocalData
  else if strict_eq_string topic (GET_LOCAL_DATA TOPIC) then CaseGetLocalData
  else if strict_eq_string topic (ALERT TOPIC) then CaseAlert
  else if strict_eq_string topic (CONFIRM_ALERT TOPIC) then CaseConfirmAlert
  else if strict_eq_string topic "download_file" then CaseDownloadFile
  else if strict_eq_string topic "upload_file" then CaseUploadFile
  else CaseDefault.

(** [message.data.name] *)
Definition data_field (message : js) (name : string) : M js :=
  do data <- read message "data" in
  read data name.

(** The [switch (message.topic)] of [handleMessage]. *)
Definition dispatch (io : IoOutcome) (message topic : js) : M unit :=
  match switch_topic topic with
  | CaseToken =>
      do st <- get_state in
      match authToken st with
      | Some token =>
          if truthy (JStr token)
          then sendTokenToWebView token
          else update pushPending
      | None => update pushPending
      end
  | CaseQrRequest => update (setScannerVisible true)
  | CaseSaveLocalData =>
      do key <- data_field message "key" in
      do value <- data_field message "value" in
      handleSaveLocalData io key value
  | CaseGetLocalData =>
      do key <- data_field message "key" in
      handleGetLocalData io key
  | CaseAlert =>
      do title <- data_field message "title" in
      do msg <- data_field message "message" in
      do buttonText <- data_field message "buttonText" in
      handleAlert title msg buttonText
  | CaseConfirmAlert =>
      do title <- data_field message "title" in
      do msg <- data_field message "message" in
      do cancelText <- data_field message "cancelButtonText" in
      do confirmText <- data_field message "confirmButtonText" in
      handleConfirmAlert title msg cancelText confirmText
  | CaseDownloadFile =>
      do fileName <- data_field message "fileName" in
      do data <- data_field message "data" in
      handleFileDownload fileName data
  | CaseUploadFile =>
      sendResponseToWeb "resolveUpload" (JObj [("success", JBool true)])
  | CaseDefault =>
      emit (Console LogWarn "Unknown bridge topic:" (LoggedValue topic))
  end.

(** The [catch] of [handleMessage]. *)
Definition logHandlingError (error : thrown) : M unit :=
  emit (Console LogError "Error handling WebView message:" (LoggedError error)).

(** [handleMessage(event)] *)
Definition handleMessage (io : IoOutcome) (event : WebViewMessageEvent)
  : M unit :=
  try_catch
    (do message <- JSON_parse (nativeEvent_data event) in
     do topic <- read message "topic" in
     if negb (truthy topic)
     then emit (Console LogWarn "Invalid message format: Missing topic" NoDetail)
     else dispatch io message topic)
    logHandlingError.

(** [renderWebView()] *)
Definition renderWebView (st : State) : Rendered :=
  if String.eqb (webUri st) "ERROR" then FileNotFound
  else if param_truthy (appId params)
          && bool_decide (webViewUri params = Some "local")
          && truthy (JStr (webUri st))
          && negb (String.eqb (webUri st) "ERROR")
  then LocalWebView
  else if isDeveloper (appConfig params)
          && param_truthy (webViewUri params)
          && negb (bool_decide (webViewUri params = Some "local"))
  then DeveloperWebView
  else if param_truthy (webViewUri params)
          && negb (bool_decide (webViewUri params = Some "local"))
  then RemoteWebView
  else NotAvailable.

(** Whether a [WebView] is on screen: [hasError ? renderError() :
    renderWebView()]. *)
Definition rendersWebView (st : State) : bool :=
  negb (hasError st) &&
  match renderWebView st with
  | LocalWebView | DeveloperWebView | RemoteWebView => true
  | FileNotFound | NotAvailable => false
  end.

(** React attaches the ref when the [WebView] mounts and resets it to
    [null] when it unmounts. *)
Definition commit (st : State) : State :=
  setWebviewRef (rendersWebView st) st.

(** ** The component as a transition system *)

(** What can happen to the mounted component. *)
Inductive Input : Type :=
| EffectFetchAuthToken (reply : AuthReply)
| EffectLocalContent (html : option string)
| EffectRemoteUri
| OnLoadStart
| OnLoadEnd
| OnError (nativeEvent : js)
| OnMessage (io : IoOutcome) (event : WebViewMessageEvent)
| PressRetry
| PressSetUrl (url : string)
| OnScan (qrData : js)
| PressCloseScanner
| PressAlertButton (b : AlertButton).

Definition wantsLocalContent : bool :=
  param_truthy (appId params) &&
  (negb (param_truthy (webViewUri params))
   || bool_decide (webViewUri params = Some "local")).

(** An input can occur only where the source wires it: the two effects
    under their guards, the events of the [WebView] while one is mounted,
    the retry button on the error screen, the URL button in developer
    mode, the scanner while it is shown.  An alert button may be pressed
    at any time (which alerts are open is not tracked). *)
Definition enabled (i : Input) (st : State) : bool :=
  match i with
  | EffectFetchAuthToken _ =>
      requiresAuth (appConfig params)
      && param_truthy (exchangedToken params)
      && param_truthy (clientId params)
  | EffectLocalContent _ => wantsLocalContent
  | EffectRemoteUri =>
      negb wantsLocalContent && param_truthy (webViewUri params)
  | OnLoadStart | OnLoadEnd | OnError _ | OnMessage _ _ => webviewRef st
  | PressRetry => hasError st
  | PressSetUrl _ => isDeveloper (appConfig params)
  | OnScan _ | PressCloseScanner => isScannerVisible st
  | PressAlertButton _ => true
  end.

Definition handle (i : Input) : M unit :=
  match i with
  | EffectFetchAuthToken reply => fetchAuthToken reply
  | EffectLocalContent (Some html) => update (setWebUri html)
  | EffectLocalContent None => update (setWebUri "ERROR")
  | EffectRemoteUri => update (setWebUri (param_to_string (webViewUri params)))
  | OnLoadStart => update (setIsLoading true)
  | OnLoadEnd => update (setIsLoading false)
  | OnError nativeEvent => handleWebViewError nativeEvent
  | OnMessage io event => handleMessage io event
  | PressRetry => reloadWebView
  | PressSetUrl url => developerSetUrl url
  | OnScan qrData => handleQrScanResult qrData
  | PressCloseScanner => update (setScannerVisible false)
  | PressAlertButton b => pressButton b
  end.

(** A handler runs, then React renders and commits. *)
Definition next (i : Input) (st : State) : State :=
  commit (final (handle i st)).

(** The state after the first render, over a store that may hold entries
    of earlier sessions. *)
Definition initial (store : gmap string string) : State :=
  commit {| isLoading := true; hasError := false;
            isScannerVisible := false; authToken := None;
            webUri := EmptyString; pendingTokenRequests := [];
            webviewRef := false; asyncStorage := store;
            tokenRequests := 0 |}.

Inductive reachable : State -> Prop :=
| reachable_initial store : reachable (initial store)
| reachable_next i st :
    reachable st -> enabled i st = true -> reachable (next i st).

(** A run of the message handler over a list of inbound messages. *)
Fixpoint handleMessages (inbound : list (IoOutcome * WebViewMessageEvent))
  : M unit :=
  match inbound with
  | [] => ret tt
  | (io, event) :: rest => handleMessage io event >> handleMessages rest
  end.

End Viewer.

(** ** Reading a trace *)

(** The scripts injected into the WebView, in order. *)
Fixpoint outbound (t : list Event) : list Script :=
  match t with
  | [] => []
  | InjectJavaScript s :: rest => s :: outbound rest
  | _ :: rest => outbound rest
  end.

(** The queued continuations that were called, in order, each with the
    token it received. *)
Fixpoint resolutions (t : list Event) : list (Continuation * string) :=
  match t with
  | [] => []
  | Resolved k token :: rest => (k, token) :: resolutions rest
  | _ :: rest => resolutions rest
  end.

(** The native alerts shown, in order. *)
Fixpoint alerts (t : list Event) : list (js * js * list AlertButton) :=
  match t with
  | [] => []
  | AlertAlert title message buttons :: rest =>
      (title, message, buttons) :: alerts rest
  | _ :: rest => alerts rest
  end.

Definition is_console (e : Event) : bool :=
  match e with
  | Console _ _ _ => true
  | _ => false
  end.

(** ** The content surface *)

(** [window.nativebridge] as the page has set it up: missing, or an object
    with the callbacks named in the list. *)
Definition Surface : Type := option (list string).

(** Running an injected script inside the page: the callback is invoked
    if and only if [window.nativebridge] and the callback exist. *)
Definition runScript (surface : Surface) (s : Script) : list (string * js) :=
  match surface with
  | Some callbacks =>
      if existsb (String.eqb (method s)) callbacks
      then [(method s, argument s)]
      else []
  | None => []
  end.

Definition delivered (surface : Surface) (t : list Event) : list (string * js) :=
  flat_map (runScript surface) (outbound t).

Definition defines (surface : Surface) (callback : string) : bool :=
  match surface with
  | Some callbacks => existsb (String.eqb callback) callbacks
  | None => false
  end.

(** ** Vocabulary of the properties *)

(** The arm of the [switch] an inbound event reaches, if it gets that far:
    [None] when the text is not JSON, when reading [topic] faults, or when
    the topic is missing (falsy). *)
Definition topic_case (TOPIC : TopicTable) (event : WebViewMessageEvent)
  : option Case :=
  match nativeEvent_data event with
  | NotJSON _ => None
  | JSONText message =>
      match get_prop message "topic" with
      | inl _ => None
      | inr topic =>
          if truthy topic then Some (switch_topic TOPIC topic) else None
      end
  end.

(** [message.data] can be read from: it is neither [undefined] nor [null]. *)
Definition has_payload (event : WebViewMessageEvent) : bool :=
  match nativeEvent_data event with
  | NotJSON _ => false
  | JSONText message =>
      match get_prop message "data" with
      | inr JUndefined | inr JNull | inl _ => false
      | inr _ => true
      end
  end.

(** The condition [if (authToken)] of the TOKEN arm. *)
Definition holdsToken (st : State) : bool :=
  match authToken st with
  | Some token => truthy (JStr token)
  | None => false
  end.

Definition resolveToken (token : string) : Script :=
  GuardedCall "resolveToken" (JStr token).

(** The effects of [sendTokenToWebView(token)] over a queue [q], written
    out: the token is pushed once, then once more after each queued
    function is taken off the queue and called. *)
Fixpoint broadcast (ref : bool) (token : string) (q : list Continuation)
  : list Event :=
  (if ref then [InjectJavaScript (resolveToken token)] else []) ++
  match q with
  | [] => []
  | k :: rest => Resolved k token :: broadcast ref token rest
  end.

(** Overwriting the two lifecycle flags. *)
Definition reflag (loading error : bool) (st : State) : State :=
  setIsLoading loading (setHasError error st).

(** A computation that neither reads nor writes the lifecycle flags: run
    from a state whose flags were overwritten, it does the same and leaves
    the overwritten flags in place. *)
Definition flag_blind {A} (m : M A) : Prop :=
  forall loading error st,
    m (reflag loading error st) =
    Run (result (m st)) (reflag loading error (final (m st))) (trace (m st)).

(** A computation whose call depth and loops stay within their budget. *)
Definition finishes {A} (m : M A) : Prop :=
  forall st, result (m st) <> OutOfFuel.

(** ** Sample sessions *)

(** The parameters the home screen passes when a service is opened. *)
Definition payslip_params : MicroAppParams :=
  {| appId := Some "payslip-viewer";
     appName := Some "Payslip Viewer";
     webViewUri := Some "local";
     clientId := Some "payslip-viewer";
     exchangedToken := Some "demo_token_123" |}.

Definition params_of (id : string) : MicroAppParams :=
  {| appId := Some id;
     appName := None;
     webViewUri := Some "local";
     clientId := Some id;
     exchangedToken := Some "demo_token_123" |}.

Definition envelope (message : js) : WebViewMessageEvent :=
  {| nativeEvent_data := JSONText message |}.

(** The payslip session once its local content is on screen, still
    loading. *)
Definition payslip_loading : State :=
  next spec_topics payslip_params (EffectLocalContent (Some "<html></html>"))
    (initial payslip_params ∅).

(** The same session after the load has ended. *)
Definition payslip_ready : State :=
  next spec_topics payslip_params OnLoadEnd payslip_loading.

(** The same session after the load has failed. *)
Definition payslip_errored : State :=
  next spec_topics payslip_params (OnError JNull) payslip_loading.

Definition token_request : WebViewMessageEvent :=
  envelope (JObj [("topic", JStr "TOKEN")]).

(** A page of the payslip session asks for the token before any fetch has
    succeeded: the request waits in the queue. *)
Definition payslip_waiting : State :=
  next spec_topics payslip_params (OnMessage IoDone token_request)
    payslip_loading.

Definition upload_request : WebViewMessageEvent :=
  envelope (JObj [("topic", JStr "upload_file")]).

Definition download_request : WebViewMessageEvent :=
  envelope (JObj [("topic", JStr "download_file");
                  ("data", JObj [("fileName", JStr "payslip.pdf");
                                 ("data", JStr "JVBERi0=")])]).

Definition save_request (key value : string) : WebViewMessageEvent :=
  envelope (JObj [("topic", JStr "SAVE_LOCAL_DATA");
                  ("data", JObj [("key", JStr key); ("value", JStr value)])]).

Definition get_request (key : string) : WebViewMessageEvent :=
  envelope (JObj [("topic", JStr "GET_LOCAL_DATA");
                  ("data", JObj [("key", JStr key)])]).

(** A save request that carries no [data]. *)
Definition save_request_bare : WebViewMessageEvent :=
  envelope (JObj [("topic", JStr "SAVE_LOCAL_DATA")]).

(** A session of the micro-app [id] with its content loaded, over the
    device store [store]. *)
Definition session_ready (id : string) (store : gmap string string) : State :=
  next spec_topics (params_of id) OnLoadEnd
    (next spec_topics (params_of id) (EffectLocalContent (Some "<html></html>"))
       (initial (params_of id) store)).

(** ** The source shown by the WebView *)

(** The [source] prop of the rendered [WebView]: the local branch passes
    [{ html: webUri }], the developer and the remote branch pass
    [{ uri: sourceUri }] where [sourceUri] is the route parameter
    [webViewUri]. *)
Inductive Source : Type :=
| SourceHtml (html : string)
| SourceUri (uri : string).

Definition webViewSource (params : MicroAppParams) (st : State)
  : option Source :=
  match renderWebView params st with
  | LocalWebView => Some (SourceHtml (webUri st))
  | DeveloperWebView | RemoteWebView =>
      Some (SourceUri (param_to_string (webViewUri params)))
  | FileNotFound | NotAvailable => None
  end.

(** What the main content area loads, if anything:
    [hasError ? renderError() : renderWebView()]. *)
Definition shownSource (params : MicroAppParams) (st : State)
  : option Source :=
  if hasError st then None else webViewSource params st.

(** ** The home screen (index.tsx) *)

Module HomeScreen.

(** An entry of [MICRO_APPS]. *)
Record MicroApp : Type := {
  id : string;
  name : string;
  description : string;
  icon : string;
  color : string;
  working : bool;
}.

(** What [handlePress] of a [ServiceCard] does: it pushes the route of
    the viewer, or shows an alert. *)
Inductive Pressed : Type :=
| RouterPush (pathname : string) (params : MicroAppParams)
| AlertComingSoon (title message : string) (buttons : list string).

Definition handlePress (app : MicroApp) : Pressed :=
  if working app
  then RouterPush "/micro-app"
         {| appId := Some (id app);
            appName := Some (name app);
            webViewUri := Some "local";
            clientId := Some (id app);
            exchangedToken := Some "demo_token_123" |}
  else AlertComingSoon "Coming Soon"
         (name app +:+ " will be available in the next update.")
         ["OK"].

Definition MICRO_APPS : list MicroApp :=
  [ {| id := "payslip-viewer"; name := "Payslip Viewer";
       description := "View your monthly payslips";
       icon := "document-text-outline"; color := "#2563EB";
       working := true |};
    {| id := "leave-management"; name := "Leave Management";
       description := "Apply for leave";
       icon := "calendar-outline"; color := "#059669";
       working := false |};
    {| id := "directory"; name := "Employee Directory";
       description := "Find contacts";
       icon := "people-outline"; color := "#7c3aed";
       working := false |} ].

End HomeScreen.

(** ** Further vocabulary *)

(** A computation that keeps a property of the state. *)
Definition keeps {A} (I : State -> Prop) (m : M A) : Prop :=
  forall st, I st -> I (final (m st)).

(** The token broker is in order: no token is held, or the token held is
    one issued by [fetchAuthToken] and nobody is waiting for it. *)
Definition broker_ok (st : State) : Prop :=
  authToken st = None
  \/ exists now : Z,
       authToken st = Some ("auth_token_" +:+ pretty now)
       /\ pendingTokenRequests st = [].

(** The guard of the effect that fetches the token on mount. *)
Definition fetchesOnMount (params : MicroAppParams) : bool :=
  requiresAuth (appConfig params)
  && param_truthy (exchangedToken params)
  && param_truthy (clientId params).

(** A developer session as the documentation opens it. *)
Definition developer_params : MicroAppParams :=
  {| appId := Some "developer_test";
     appName := Some "Development App";
     webViewUri := Some "http://localhost:3000";
     clientId := None;
     exchangedToken := None |}.

(** A session opened without [webViewUri]. *)
Definition unlocated_params : MicroAppParams :=
  {| appId := Some "payslip-viewer";
     appName := Some "Payslip Viewer";
     webViewUri := None;
     clientId := Some "payslip-viewer";
     exchangedToken := Some "demo_token_123" |}.

Definition alert_request : WebViewMessageEvent :=
  envelope (JObj [("topic", JStr "ALERT");
                  ("data", JObj [("title", JStr "T"); ("message", JStr "M")])]).

Definition qr_request : WebViewMessageEvent :=
  envelope (JObj [("topic", JStr "QR_REQUEST")]).

(** ** Properties *)

Section Properties.

Variable TOPIC : TopicTable.
Variable params : MicroAppParams.

(** *** Equations of the handler monad *)

Lemma run_eta {A} (r : run A) : Run (result r) (final r) (trace r) = r.
Proof. destruct r; reflexivity. Qed.

Lemma bind_ret {A B} (a : A) (f : A -> M B) st : bind (ret a) f st = f a st.
Proof. unfold bind, ret; simpl. apply run_eta. Qed.

Lemma bind_get_state {B} (f : State -> M B) st :
  bind get_state f st = f st st.
Proof. unfold bind, get_state; simpl. apply run_eta. Qed.

Lemma bind_update {B} (g : State -> State) (f : unit -> M B) st :
  bind (update g) f st = f tt (g st).
Proof. unfold bind, update; simpl. apply run_eta. Qed.

Lemma bind_emit {B} (e : Event) (f : unit -> M B) st :
  bind (emit e) f st =
  Run (result (f tt st)) (final (f tt st)) (e :: trace (f tt st)).
Proof. reflexivity. Qed.

Lemma bind_throw {A B} (e : thrown) (f : A -> M B) st :
  bind (throw e) f st = Run (Threw e) st [].
Proof. reflexivity. Qed.

Lemma bind_returned {A B} (m : M A) (f : A -> M B) st a st' t :
  m st = Run (Returned a) st' t ->
  bind m f st = Run (result (f a st')) (final (f a st')) (t ++ trace (f a st')).
Proof. intros H. unfold bind. rewrite H. reflexivity. Qed.

Lemma bind_assoc {A B C} (m : M A) (f : A -> M B) (g : B -> M C) st :
  bind (bind m f) g st = bind m (fun x => bind (f x) g) st.
Proof.
  unfold bind. destruct (m st) as [[a| e |] st1 t1]; simpl; try reflexivity.
  destruct (f a st1) as [[b| e |] st2 t2]; simpl; try reflexivity.
  rewrite app_assoc. reflexivity.
Qed.

Lemma try_catch_returned {A} (body : M A) handler st a st' t :
  body st = Run (Returned a) st' t ->
  try_catch body handler st = Run (Returned a) st' t.
Proof. intros H. unfold try_catch. rewrite H. reflexivity. Qed.

Lemma try_catch_threw {A} (body : M A) handler st e st' t :
  body st = Run (Threw e) st' t ->
  try_catch body handler st =
  Run (result (handler e st')) (final (handler e st'))
      (t ++ trace (handler e st')).
Proof. intros H. unfold try_catch. rewrite H. reflexivity. Qed.

Lemma sendResponseToWeb_run method data st :
  sendResponseToWeb method data st =
  Run (Returned tt) st
      (if webviewRef st
       then [InjectJavaScript (GuardedCall method (via_json data))]
       else []).
Proof.
  unfold sendResponseToWeb. rewrite bind_get_state.
  destruct (webviewRef st); reflexivity.
Qed.

(** *** The token queue *)

Lemma sendTokenToWebView_fuel_S fuel token :
  sendTokenToWebView_fuel (S fuel) token =
  if negb (truthy (JStr token)) then ret tt
  else
    sendResponseToWeb "resolveToken" (JStr token) >>
    drain (fun resolve token' =>
             emit (Resolved resolve token') >>
             sendTokenToWebView_fuel fuel token')
          fuel token.
Proof. reflexivity. Qed.

Lemma drain_empty call budget token st :
  pendingTokenRequests st = [] ->
  drain call budget token st = Run (Returned tt) st [].
Proof.
  intros Hq. destruct budget; cbn [drain]; rewrite bind_get_state, Hq;
    reflexivity.
Qed.

Lemma drain_cons call budget token st k rest :
  pendingTokenRequests st = k :: rest ->
  drain call (S budget) token st =
  (call k token >> drain call budget token) (setPending rest st).
Proof.
  intros Hq. cbn [drain]. rewrite bind_get_state, Hq, bind_update.
  reflexivity.
Qed.

Lemma truthy_nonempty token :
  token <> EmptyString -> truthy (JStr token) = true.
Proof. destruct token; [congruence | reflexivity]. Qed.

(** With fuel beyond the length of the queue, [sendTokenToWebView] runs
    to completion, and its effects are those of [broadcast]. *)
Lemma sendTokenToWebView_fuel_closed token :
  token <> EmptyString ->
  forall fuel st,
    length (pendingTokenRequests st) < fuel ->
    sendTokenToWebView_fuel fuel token st =
    Run (Returned tt) (setPending [] st)
        (broadcast (webviewRef st) token (pendingTokenRequests st)).
Proof.
  intros Htok. induction fuel as [|fuel IH]; intros st Hlen; [lia|].
  rewrite sendTokenToWebView_fuel_S, (truthy_nonempty _ Htok). cbn [negb].
  erewrite bind_returned by apply sendResponseToWeb_run.
  destruct (pendingTokenRequests st) as [|k rest] eqn:Hq.
  - rewrite drain_empty by assumption. cbn [result final trace broadcast].
    destruct st; cbn in Hq; subst; reflexivity.
  - cbn [length] in Hlen. destruct fuel as [|fuel']; [lia|].
    erewrite drain_cons by eassumption.
    rewrite bind_assoc, bind_emit.
    erewrite bind_returned; cycle 1.
    { apply IH. cbn. lia. }
    rewrite drain_empty by reflexivity.
    cbn [result final trace broadcast webviewRef setPending pendingTokenRequests].
    rewrite app_nil_r. reflexivity.
Qed.

Lemma sendTokenToWebView_run token st :
  token <> EmptyString ->
  sendTokenToWebView token st =
  Run (Returned tt) (setPending [] st)
      (broadcast (webviewRef st) token (pendingTokenRequests st)).
Proof.
  intros Htok. unfold sendTokenToWebView.
  apply sendTokenToWebView_fuel_closed; [assumption | lia].
Qed.

(** More fuel than the queue needs changes nothing. *)
Lemma sendTokenToWebView_fuel_enough token fuel st :
  token <> EmptyString ->
  length (pendingTokenRequests st) < fuel ->
  sendTokenToWebView_fuel fuel token st = sendTokenToWebView token st.
Proof.
  intros Htok Hlen. rewrite sendTokenToWebView_run by assumption.
  apply sendTokenToWebView_fuel_closed; assumption.
Qed.

(** The guard [if (!token) return]. *)
Lemma sendTokenToWebView_empty st :
  sendTokenToWebView EmptyString st = Run (Returned tt) st [].
Proof. reflexivity. Qed.

Lemma resolutions_broadcast ref token q :
  resolutions (broadcast ref token q) = map (fun k => (k, token)) q.
Proof.
  induction q as [|k rest IH]; destruct ref; cbn in *; try reflexivity;
    rewrite IH; reflexivity.
Qed.

Lemma outbound_broadcast ref token q :
  outbound (broadcast ref token q) =
  if ref then replicate (S (length q)) (resolveToken token) else [].
Proof.
  induction q as [|k rest IH]; destruct ref; cbn in *; try reflexivity;
    rewrite IH; reflexivity.
Qed.

Lemma outbound_app t1 t2 :
  outbound (t1 ++ t2) = (outbound t1 ++ outbound t2)%list.
Proof.
  induction t1 as [|e t1 IH]; [reflexivity|].
  destruct e; cbn; rewrite IH; reflexivity.
Qed.

(** A TOKEN message that finds no token held only joins the queue. *)
Lemma handleMessage_token_queued io event st :
  topic_case TOPIC event = Some CaseToken ->
  holdsToken st = false ->
  handleMessage TOPIC params io event st = Run (Returned tt) (pushPending st) [].
Proof.
  unfold topic_case, holdsToken, handleMessage. intros Hcase Hheld.
  destruct (nativeEvent_data event) as [raw|message]; [discriminate|].
  destruct (get_prop message "topic") as [e|topic] eqn:Hget; [discriminate|].
  destruct (truthy topic) eqn:Htopic; [|discriminate].
  injection Hcase as Hcase.
  apply try_catch_returned.
  cbn [JSON_parse]. rewrite bind_ret. unfold read. rewrite Hget, bind_ret.
  rewrite Htopic. cbn [negb]. unfold dispatch. rewrite Hcase, bind_get_state.
  destruct (authToken st) as [token|]; [|reflexivity].
  rewrite Hheld. reflexivity.
Qed.



(** A successful fetch stores the token and broadcasts it. *)
Lemma fetchAuthToken_issued now st :
  fetchAuthToken (Issued now) st =
  Run (Returned tt)
      (setPending [] (setAuthToken (Some ("auth_token_" +:+ pretty now)) st))
      (broadcast (webviewRef st) ("auth_token_" +:+ pretty now)
                 (pendingTokenRequests st)).
Proof.
  unfold fetchAuthToken. apply try_catch_returned.
  cbn [acquire]. rewrite bind_ret, bind_update.
  rewrite sendTokenToWebView_run by discriminate. reflexivity.
Qed.

(** A successful fetch calls every waiting continuation, in queue order,
    with the token it has just stored, and empties the queue. *)
Lemma fetch_resolves_waiters now st :
  resolutions (trace (fetchAuthToken (Issued now) st)) =
  map (fun k => (k, "auth_token_" +:+ pretty now)) (pendingTokenRequests st)
  /\ pendingTokenRequests (final (fetchAuthToken (Issued now) st)) = []
  /\ authToken (final (fetchAuthToken (Issued now) st))
     = Some ("auth_token_" +:+ pretty now).
Proof.
  rewrite fetchAuthToken_issued. cbn [result final trace].
  rewrite resolutions_broadcast. repeat split.
Qed.

(** *** Failure of the credential fetch *)


(** *** Decoding and dispatch *)

Lemma topic_case_Some event c :
  topic_case TOPIC event = Some c ->
  exists fields,
    nativeEvent_data event = JSONText (JObj fields)
    /\ truthy (lookup_field "topic" fields) = true
    /\ switch_topic TOPIC (lookup_field "topic" fields) = c.
Proof.
  unfold topic_case. destruct (nativeEvent_data event) as [raw|message];
    [discriminate|].
  destruct message; cbn; try discriminate.
  destruct (truthy (lookup_field "topic" fields)) eqn:Ht; [|discriminate].
  intros [= <-]. eauto.
Qed.

(** A message that reaches the [switch] is handled by the matching arm,
    under the [catch] of [handleMessage]. *)
Lemma handleMessage_dispatch io event fields st :
  nativeEvent_data event = JSONText (JObj fields) ->
  truthy (lookup_field "topic" fields) = true ->
  handleMessage TOPIC params io event st =
  try_catch (dispatch TOPIC params io (JObj fields) (lookup_field "topic" fields))
            logHandlingError st.
Proof.
  intros Hdata Htopic. unfold handleMessage, try_catch.
  rewrite Hdata. cbn [JSON_parse]. rewrite bind_ret.
  unfold read. cbn [get_prop]. rewrite bind_ret, Htopic. reflexivity.
Qed.

(** A message that does not reach the [switch] is logged and dropped. *)
Lemma handleMessage_undecoded io event st :
  topic_case TOPIC event = None ->
  exists entry,
    handleMessage TOPIC params io event st =
    Run (Returned tt) st [entry] /\ is_console entry = true.
Proof.
  unfold topic_case, handleMessage. intros Hcase.
  destruct (nativeEvent_data event) as [raw|message].
  - eexists. split; [reflexivity | reflexivity].
  - unfold try_catch. cbn [JSON_parse]. rewrite bind_ret. unfold read.
    destruct (get_prop message "topic") as [e|topic].
    + rewrite bind_throw. eexists. split; reflexivity.
    + rewrite bind_ret.
      destruct (truthy topic); [discriminate|].
      eexists. split; reflexivity.
Qed.

Lemma handleMessage_unknown_topic io event st :
  topic_case TOPIC event = Some CaseDefault ->
  exists entry,
    handleMessage TOPIC params io event st =
    Run (Returned tt) st [entry] /\ is_console entry = true.
Proof.
  intros Hcase. destruct (topic_case_Some _ _ Hcase) as (fields & Hd & Ht & Hsw).
  rewrite (handleMessage_dispatch _ _ _ _ Hd Ht).
  unfold try_catch, dispatch. rewrite Hsw.
  eexists. split; reflexivity.
Qed.

(** C3. An inbound envelope that is not valid JSON, that carries no topic,
    or whose topic matches no [case] of the handler is logged and dropped:
    the handler returns (nothing is thrown past it), nothing is injected
    into the page, the state is left as it was, and therefore any message
    that follows is handled exactly as it would have been. *)
Theorem malformed_envelope_dropped
  (io : IoOutcome) (event : WebViewMessageEvent) (st : State) :
  topic_case TOPIC event = None \/ topic_case TOPIC event = Some CaseDefault ->
  let r := handleMessage TOPIC params io event st in
  result r = Returned tt
  /\ outbound (trace r) = []
  /\ forallb is_console (trace r) = true
  /\ final r = st
  /\ forall io' event',
       handleMessage TOPIC params io' event' (final r) =
       handleMessage TOPIC params io' event' st.
Proof.
  intros Hbad r.
  assert (H : exists entry,
             r = Run (Returned tt) st [entry] /\ is_console entry = true).
  { destruct Hbad as [Hnone|Hdefault].
    - apply handleMessage_undecoded; assumption.
    - apply handleMessage_unknown_topic; assumption. }
  destruct H as (entry & -> & Hentry). cbn [result final trace forallb].
  rewrite Hentry. destruct entry; try discriminate.
  repeat split; reflexivity.
Qed.

(** *** Nothing escapes the handler *)

Lemma finishes_ret {A} (a : A) : finishes (ret a).
Proof. intros st. discriminate. Qed.

Lemma finishes_throw {A} (x : thrown) : finishes (@throw A x).
Proof. intros st. discriminate. Qed.

Lemma finishes_emit (x : Event) : finishes (emit x).
Proof. intros st. discriminate. Qed.

Lemma finishes_update (h : State -> State) : finishes (update h).
Proof. intros st. discriminate. Qed.

Lemma finishes_bind {A B} (m : M A) (f : A -> M B) :
  finishes m -> (forall a, finishes (f a)) -> finishes (bind m f).
Proof.
  intros Hm Hf st. unfold bind. specialize (Hm st).
  destruct (m st) as [[a|x|] st' t]; cbn [result final trace] in *;
    [apply Hf | discriminate | congruence].
Qed.

Lemma finishes_try_catch {A} (body : M A) (handler : thrown -> M A) :
  finishes body -> (forall x, finishes (handler x)) ->
  finishes (try_catch body handler).
Proof.
  intros Hm Hf st. unfold try_catch. specialize (Hm st).
  destruct (body st) as [[a|x|] st' t]; cbn [result final trace] in *;
    [discriminate | apply Hf | congruence].
Qed.

Lemma finishes_get_state {B} (f : State -> M B) :
  (forall st, finishes (f st)) -> finishes (bind get_state f).
Proof. intros Hf st. rewrite bind_get_state. apply Hf. Qed.

Lemma finishes_sendResponseToWeb method data :
  finishes (sendResponseToWeb method data).
Proof. intros st. rewrite sendResponseToWeb_run. discriminate. Qed.

Lemma finishes_sendTokenToWebView token :
  finishes (sendTokenToWebView token).
Proof.
  intros st. destruct token as [|c token].
  - rewrite sendTokenToWebView_empty. discriminate.
  - rewrite sendTokenToWebView_run by discriminate. discriminate.
Qed.

Lemma finishes_data_field message name : finishes (data_field message name).
Proof.
  unfold data_field, read. apply finishes_bind.
  - destruct (get_prop message "data");
      [apply finishes_throw | apply finishes_ret].
  - intros data. destruct (get_prop data name);
      [apply finishes_throw | apply finishes_ret].
Qed.

Lemma finishes_dispatch io message topic :
  finishes (dispatch TOPIC params io message topic).
Proof.
  unfold dispatch. destruct (switch_topic TOPIC topic).
  - apply finishes_get_state. intros st.
    destruct (authToken st) as [token|]; [|apply finishes_update].
    destruct (truthy (JStr token));
      [apply finishes_sendTokenToWebView | apply finishes_update].
  - apply finishes_update.
  - apply finishes_bind; [apply finishes_data_field | intros key].
    apply finishes_bind; [apply finishes_data_field | intros value].
    unfold handleSaveLocalData. apply finishes_try_catch.
    + apply finishes_bind; [|intros; apply finishes_sendResponseToWeb].
      unfold AsyncStorage_setItem. destruct io; [|apply finishes_throw].
      destruct value; apply finishes_throw || apply finishes_update.
    + intros x. apply finishes_sendResponseToWeb.
  - repeat (apply finishes_bind; [apply finishes_data_field | intros ?]).
    unfold handleGetLocalData. apply finishes_try_catch.
    + apply finishes_bind; [|intros; apply finishes_sendResponseToWeb].
      unfold AsyncStorage_getItem. destruct io; [|apply finishes_throw].
      apply finishes_get_state. intros st. apply finishes_ret.
    + intros x. apply finishes_sendResponseToWeb.
  - repeat (apply finishes_bind; [apply finishes_data_field | intros ?]).
    apply finishes_emit.
  - repeat (apply finishes_bind; [apply finishes_data_field | intros ?]).
    apply finishes_emit.
  - repeat (apply finishes_bind; [apply finishes_data_field | intros ?]).
    unfold handleFileDownload. apply finishes_try_catch.
    + destruct (allowsFileAccess (appConfig params)); [|apply finishes_throw].
      apply finishes_bind; [apply finishes_emit|].
      intros; apply finishes_sendResponseToWeb.
    + intros x. apply finishes_sendResponseToWeb.
  - apply finishes_sendResponseToWeb.
  - apply finishes_emit.
Qed.

(** Whatever arrives, [handleMessage] returns: a fault inside is caught
    and logged, and the token queue is always drained within budget. *)
Lemma handleMessage_returns io event st :
  result (handleMessage TOPIC params io event st) = Returned tt.
Proof.
  unfold handleMessage, try_catch.
  match goal with |- context [result (?body st)] =>
    assert (Hfin : finishes body); [|specialize (Hfin st);
      destruct (body st) as [[[]|x|] st' t]; cbn [result final trace] in *;
        [reflexivity | reflexivity | congruence]]
  end.
  apply finishes_bind.
  - unfold JSON_parse. destruct (nativeEvent_data event);
      [apply finishes_throw | apply finishes_ret].
  - intros message. apply finishes_bind.
    + unfold read. destruct (get_prop message "topic");
        [apply finishes_throw | apply finishes_ret].
    + intros topic. destruct (negb (truthy topic));
        [apply finishes_emit | apply finishes_dispatch].
Qed.

(** *** Replies of the request handlers *)

Lemma data_field_run fields name st :
  data_field (JObj fields) name st =
  match get_prop (lookup_field "data" fields) name with
  | inl e => Run (Threw e) st []
  | inr v => Run (Returned v) st []
  end.
Proof.
  unfold data_field, read. cbn [get_prop]. rewrite bind_ret.
  destruct (get_prop (lookup_field "data" fields) name); reflexivity.
Qed.

Lemma get_prop_payload v name :
  match v with JUndefined | JNull => False | _ => True end ->
  exists x, get_prop v name = inr x.
Proof. destruct v; cbn; intros H; try contradiction; eauto. Qed.

Lemma handleSaveLocalData_replies_once io key value st :
  webviewRef st = true ->
  exists s,
    result (handleSaveLocalData params io key value st) = Returned tt
    /\ trace (handleSaveLocalData params io key value st) = [InjectJavaScript s]
    /\ (method s = "resolveSaveLocalData" \/ method s = "rejectSaveLocalData").
Proof.
  intros Href. unfold handleSaveLocalData, try_catch, AsyncStorage_setItem.
  destruct io as [|e]; [destruct value|];
    rewrite ?bind_update, ?bind_throw, ?sendResponseToWeb_run;
    cbn [result final trace setStorage webviewRef app];
    rewrite ?sendResponseToWeb_run, ?Href;
    cbn [result final trace setStorage webviewRef app];
    eexists; (split; [reflexivity|split; [reflexivity|cbn; auto]]).
Qed.

Lemma handleGetLocalData_run io key st :
  handleGetLocalData params io key st =
  Run (Returned tt) st
      (if webviewRef st
       then [InjectJavaScript
               match io with
               | IoDone =>
                   GuardedCall "resolveGetLocalData"
                     (JObj [("value",
                             match asyncStorage st
                                     !! storageKey params (to_string key) with
                             | Some s => JStr s
                             | None => JNull
                             end)])
               | IoFailed e =>
                   GuardedCall "rejectGetLocalData"
                     (JStr (message_or "Storage error" e))
               end]
       else []).
Proof.
  unfold handleGetLocalData, try_catch, AsyncStorage_getItem.
  destruct io as [|e].
  - rewrite bind_assoc, bind_get_state, bind_ret, sendResponseToWeb_run.
    destruct (webviewRef st); [|reflexivity].
    destruct (asyncStorage st !! storageKey params (to_string key));
      reflexivity.
  - rewrite bind_throw. cbn [result final trace].
    rewrite sendResponseToWeb_run. destruct (webviewRef st); reflexivity.
Qed.

Lemma handleFileDownload_run fileName data st :
  handleFileDownload params fileName data st =
  Run (Returned tt) st
      (if allowsFileAccess (appConfig params)
       then
         AlertAlert (JStr "Download")
           (JStr ("File " +:+ dquote +:+ to_string fileName +:+ dquote
                  +:+ " downloaded successfully."))
           [ {| text := JStr "OK"; style := StyleDefault; onPress := None |} ]
         :: (if webviewRef st
             then [InjectJavaScript
                     (GuardedCall "resolveDownload"
                        (via_json (JObj [("fileName", fileName);
                                         ("success", JBool true)])))]
             else [])
       else
         if webviewRef st
         then [InjectJavaScript
                 (GuardedCall "rejectDownload"
                    (JStr "File access not permitted for this app"))]
         else []).
Proof.
  unfold handleFileDownload, try_catch.
  destruct (allowsFileAccess (appConfig params)).
  - unfold handleAlert. rewrite bind_emit, sendResponseToWeb_run.
    destruct (webviewRef st); reflexivity.
  - cbn [throw result final trace message_or].
    rewrite sendResponseToWeb_run. destruct (webviewRef st); reflexivity.
Qed.

(** A file download requested without the file capability is answered by
    [rejectDownload] alone: no alert is shown, nothing else happens. *)
Lemma download_denied_without_capability fileName data st :
  allowsFileAccess (appConfig params) = false ->
  webviewRef st = true ->
  handleFileDownload params fileName data st =
  Run (Returned tt) st
      [InjectJavaScript
         (GuardedCall "rejectDownload"
            (JStr "File access not permitted for this app"))].
Proof.
  intros Hflag Href. rewrite handleFileDownload_run, Hflag, Href. reflexivity.
Qed.

Lemma has_payload_fields event fields :
  nativeEvent_data event = JSONText (JObj fields) ->
  has_payload event =
  match lookup_field "data" fields with
  | JUndefined | JNull => false
  | _ => true
  end.
Proof. intros H. unfold has_payload. rewrite H. reflexivity. Qed.

(** Without a payload every arm that reads [message.data.*] faults on its
    first read; the fault is caught and logged by [handleMessage]. *)
Lemma payload_missing_logged fields name (k : js -> M unit) st :
  match lookup_field "data" fields with
  | JUndefined | JNull => true
  | _ => false
  end = true ->
  exists e,
    try_catch (do x <- data_field (JObj fields) name in k x)
              logHandlingError st =
    Run (Returned tt) st
        [Console LogError "Error handling WebView message:" (LoggedError e)].
Proof.
  intros Hdata. unfold try_catch, bind. rewrite data_field_run.
  destruct (lookup_field "data" fields); try discriminate;
    eexists; reflexivity.
Qed.

Lemma data_field_present fields name :
  match lookup_field "data" fields with
  | JUndefined | JNull => false
  | _ => true
  end = true ->
  exists x, forall st, data_field (JObj fields) name st = Run (Returned x) st [].
Proof.
  intros Hdata.
  destruct (get_prop_payload (lookup_field "data" fields) name) as [x Hx].
  { destruct (lookup_field "data" fields); try discriminate; exact I. }
  exists x. intros st. rewrite data_field_run, Hx. reflexivity.
Qed.

(** C4 (as the code has it). For an inbound message with one of the
    request topics, handled while the WebView is mounted, the handler
    never faults towards the host.  It does not validate the payload.
    With a payload to read from, [SAVE_LOCAL_DATA], [GET_LOCAL_DATA] and
    [download_file] send exactly one reply, a resolve or a reject;
    [upload_file] sends exactly one [resolveUpload] whatever the payload.
    Without a payload ([message.data] undefined or null) the fault of the
    first read is caught and logged, and no reply is sent.
    [CONFIRM_ALERT] and [QR_REQUEST] send no reply while they are handled:
    the confirmation dialog has two buttons, each of which sends one
    [resolveConfirmAlert] when pressed, and a scan of the opened scanner
    sends one [resolveQrCode]. *)
Theorem request_reply_count
  (io : IoOutcome) (event : WebViewMessageEvent) (st : State) (c : Case) :
  topic_case TOPIC event = Some c ->
  webviewRef st = true ->
  let r := handleMessage TOPIC params io event st in
  result r = Returned tt
  /\ match c with
     | CaseSaveLocalData =>
         if has_payload event
         then exists s, outbound (trace r) = [s]
                /\ (method s = "resolveSaveLocalData"
                    \/ method s = "rejectSaveLocalData")
         else outbound (trace r) = [] /\ forallb is_console (trace r) = true
     | CaseGetLocalData =>
         if has_payload event
         then exists s, outbound (trace r) = [s]
                /\ (method s = "resolveGetLocalData"
                    \/ method s = "rejectGetLocalData")
         else outbound (trace r) = [] /\ forallb is_console (trace r) = true
     | CaseDownloadFile =>
         if has_payload event
         then exists s, outbound (trace r) = [s]
                /\ (method s = "resolveDownload" \/ method s = "rejectDownload")
         else outbound (trace r) = [] /\ forallb is_console (trace r) = true
     | CaseUploadFile =>
         outbound (trace r) =
         [GuardedCall "resolveUpload" (JObj [("success", JBool true)])]
     | CaseConfirmAlert =>
         outbound (trace r) = []
         /\ if has_payload event
            then exists title message cancel confirm,
                alerts (trace r) = [(title, message, [cancel; confirm])]
                /\ outbound (trace (pressButton cancel (final r))) =
                   [GuardedCall "resolveConfirmAlert" (JStr "cancel")]
                /\ outbound (trace (pressButton confirm (final r))) =
                   [GuardedCall "resolveConfirmAlert" (JStr "confirm")]
            else alerts (trace r) = []
     | CaseQrRequest =>
         outbound (trace r) = []
         /\ isScannerVisible (final r) = true
         /\ forall qrData,
              outbound (trace (handleQrScanResult qrData (final r))) =
              [GuardedCall "resolveQrCode" (via_json qrData)]
     | CaseToken | CaseAlert | CaseDefault => True
     end.
Proof.
  intros Hcase Href r.
  destruct (topic_case_Some _ _ Hcase) as (fields & Hd & Ht & Hsw).
  subst r. rewrite (handleMessage_dispatch _ _ _ _ Hd Ht).
  rewrite (has_payload_fields _ _ Hd).
  unfold dispatch. rewrite Hsw.
  destruct c.
  - (* TOKEN *)
    split; [|exact I].
    unfold try_catch. rewrite bind_get_state.
    destruct (authToken st) as [token|]; [|reflexivity].
    destruct (truthy (JStr token)) eqn:Htok; [|reflexivity].
    rewrite sendTokenToWebView_run; [reflexivity|].
    intros ->. discriminate.
  - (* QR_REQUEST *)
    cbn [try_catch update result final trace outbound isScannerVisible
         setScannerVisible].
    repeat split. intros qrData. unfold handleQrScanResult.
    erewrite bind_returned by apply sendResponseToWeb_run.
    cbn [webviewRef setScannerVisible]. rewrite Href. reflexivity.
  - (* SAVE_LOCAL_DATA *)
    destruct (match lookup_field "data" fields with
              | JUndefined | JNull => false | _ => true end) eqn:Hp.
    + destruct (data_field_present fields "key" Hp) as [key Hkey].
      destruct (data_field_present fields "value" Hp) as [value Hvalue].
      destruct (handleSaveLocalData_replies_once io key value st Href)
        as (s & Hres & Htr & Hs).
      unfold try_catch.
      erewrite bind_returned by apply Hkey.
      erewrite (bind_returned _ _ st) by apply Hvalue.
      cbn [result final trace app]. rewrite Hres, Htr.
      split; [reflexivity|]. exists s. split; [reflexivity | exact Hs].
    + destruct (payload_missing_logged fields "key"
                  (fun key => do value <- data_field (JObj fields) "value" in
                              handleSaveLocalData params io key value) st)
        as [e He].
      { destruct (lookup_field "data" fields); try discriminate; reflexivity. }
      rewrite He. repeat split.
  - (* GET_LOCAL_DATA *)
    destruct (match lookup_field "data" fields with
              | JUndefined | JNull => false | _ => true end) eqn:Hp.
    + destruct (data_field_present fields "key" Hp) as [key Hkey].
      unfold try_catch.
      erewrite bind_returned by apply Hkey.
      rewrite handleGetLocalData_run, Href. cbn [result final trace app outbound].
      split; [reflexivity|]. eexists. split; [reflexivity|].
      destruct io; cbn; auto.
    + destruct (payload_missing_logged fields "key"
                  (fun key => handleGetLocalData params io key) st) as [e He].
      { destruct (lookup_field "data" fields); try discriminate; reflexivity. }
      rewrite He. repeat split.
  - (* ALERT *)
    split; [|exact I].
    destruct (match lookup_field "data" fields with
              | JUndefined | JNull => false | _ => true end) eqn:Hp.
    + destruct (data_field_present fields "title" Hp) as [title Htitle].
      destruct (data_field_present fields "message" Hp) as [msg Hmsg].
      destruct (data_field_present fields "buttonText" Hp) as [bt Hbt].
      unfold try_catch.
      erewrite bind_returned by apply Htitle.
      erewrite (bind_returned _ _ st) by apply Hmsg.
      erewrite (bind_returned _ _ st) by apply Hbt.
      reflexivity.
    + destruct (payload_missing_logged fields "title"
                  (fun title =>
                     do msg <- data_field (JObj fields) "message" in
                     do buttonText <- data_field (JObj fields) "buttonText" in
                     handleAlert title msg buttonText) st) as [e He].
      { destruct (lookup_field "data" fields); try discriminate; reflexivity. }
      rewrite He. reflexivity.
  - (* CONFIRM_ALERT *)
    destruct (match lookup_field "data" fields with
              | JUndefined | JNull => false | _ => true end) eqn:Hp.
    + destruct (data_field_present fields "title" Hp) as [title Htitle].
      destruct (data_field_present fields "message" Hp) as [msg Hmsg].
      destruct (data_field_present fields "cancelButtonText" Hp) as [ct Hct].
      destruct (data_field_present fields "confirmButtonText" Hp) as [cf Hcf].
      unfold try_catch.
      erewrite bind_returned by apply Htitle.
      erewrite (bind_returned _ _ st) by apply Hmsg.
      erewrite (bind_returned _ _ st) by apply Hct.
      erewrite (bind_returned _ _ st) by apply Hcf.
      cbn [handleConfirmAlert emit result final trace app outbound alerts].
      repeat split.
      eexists _, _, _, _. split; [reflexivity|].
      unfold pressButton. cbn [onPress]. rewrite !sendResponseToWeb_run, Href.
      split; reflexivity.
    + destruct (payload_missing_logged fields "title"
                  (fun title =>
                     do msg <- data_field (JObj fields) "message" in
                     do cancelText <- data_field (JObj fields) "cancelButtonText" in
                     do confirmText <- data_field (JObj fields) "confirmButtonText" in
                     handleConfirmAlert title msg cancelText confirmText) st)
        as [e He].
      { destruct (lookup_field "data" fields); try discriminate; reflexivity. }
      rewrite He. repeat split.
  - (* download_file *)
    destruct (match lookup_field "data" fields with
              | JUndefined | JNull => false | _ => true end) eqn:Hp.
    + destruct (data_field_present fields "fileName" Hp) as [fileName Hname].
      destruct (data_field_present fields "data" Hp) as [data Hdata].
      unfold try_catch.
      erewrite bind_returned by apply Hname.
      erewrite (bind_returned _ _ st) by apply Hdata.
      rewrite handleFileDownload_run, Href.
      cbn [result final trace app]. split; [reflexivity|].
      destruct (allowsFileAccess (appConfig params));
        (eexists; split; [reflexivity | cbn; auto]).
    + destruct (payload_missing_logged fields "fileName"
                  (fun fileName =>
                     do data <- data_field (JObj fields) "data" in
                     handleFileDownload params fileName data) st) as [e He].
      { destruct (lookup_field "data" fields); try discriminate; reflexivity. }
      rewrite He. repeat split.
  - (* upload_file *)
    unfold try_catch. rewrite sendResponseToWeb_run, Href. split; reflexivity.
  - (* default *)
    split; [reflexivity | exact I].
Qed.

(** *** Dispatch and the lifecycle flags *)

Lemma flag_blind_ret {A} (a : A) : flag_blind (ret a).
Proof. intros b e st. reflexivity. Qed.

Lemma flag_blind_throw {A} (x : thrown) : flag_blind (@throw A x).
Proof. intros b e st. reflexivity. Qed.

Lemma flag_blind_emit (x : Event) : flag_blind (emit x).
Proof. intros b e st. reflexivity. Qed.

Lemma flag_blind_update (h : State -> State) :
  (forall b e st, h (reflag b e st) = reflag b e (h st)) ->
  flag_blind (update h).
Proof. intros Hh b e st. unfold update. rewrite Hh. reflexivity. Qed.

Lemma flag_blind_bind {A B} (m : M A) (f : A -> M B) :
  flag_blind m -> (forall a, flag_blind (f a)) -> flag_blind (bind m f).
Proof.
  intros Hm Hf b e st. unfold bind. rewrite (Hm b e st).
  destruct (m st) as [[a|x|] st' t]; cbn [result final trace];
    try reflexivity.
  rewrite (Hf a b e st'). reflexivity.
Qed.

Lemma flag_blind_try_catch {A} (body : M A) (handler : thrown -> M A) :
  flag_blind body -> (forall x, flag_blind (handler x)) ->
  flag_blind (try_catch body handler).
Proof.
  intros Hm Hf b e st. unfold try_catch. rewrite (Hm b e st).
  destruct (body st) as [[a|x|] st' t]; cbn [result final trace];
    try reflexivity.
  rewrite (Hf x b e st'). reflexivity.
Qed.

(** Reading the state is harmless when what is read does not depend on
    the flags. *)
Lemma flag_blind_get_state {B} (f : State -> M B) :
  (forall b e st, f (reflag b e st) = f st) ->
  (forall st, flag_blind (f st)) ->
  flag_blind (bind get_state f).
Proof.
  intros Hread Hf b e st. rewrite !bind_get_state, Hread. apply Hf.
Qed.

Lemma flag_blind_sendResponseToWeb method data :
  flag_blind (sendResponseToWeb method data).
Proof.
  intros b e st. rewrite !sendResponseToWeb_run. reflexivity.
Qed.

Lemma flag_blind_sendTokenToWebView token :
  token <> EmptyString -> flag_blind (sendTokenToWebView token).
Proof.
  intros Htok b e st. rewrite !sendTokenToWebView_run by assumption.
  reflexivity.
Qed.

Lemma flag_blind_read v name : flag_blind (read v name).
Proof.
  unfold read. destruct (get_prop v name);
    [apply flag_blind_throw | apply flag_blind_ret].
Qed.

Lemma flag_blind_data_field message name :
  flag_blind (data_field message name).
Proof.
  unfold data_field. apply flag_blind_bind; intros; apply flag_blind_read.
Qed.

Lemma flag_blind_handleAlert title message buttonText :
  flag_blind (handleAlert title message buttonText).
Proof. apply flag_blind_emit. Qed.

Lemma flag_blind_handleSaveLocalData io key value :
  flag_blind (handleSaveLocalData params io key value).
Proof.
  unfold handleSaveLocalData. apply flag_blind_try_catch.
  - apply flag_blind_bind; [|intros; apply flag_blind_sendResponseToWeb].
    unfold AsyncStorage_setItem. destruct io; [|apply flag_blind_throw].
    destruct value; try apply flag_blind_throw.
    apply flag_blind_update. reflexivity.
  - intros x. apply flag_blind_sendResponseToWeb.
Qed.

Lemma flag_blind_handleGetLocalData io key :
  flag_blind (handleGetLocalData params io key).
Proof.
  intros b e st. rewrite !handleGetLocalData_run. reflexivity.
Qed.

Lemma flag_blind_handleFileDownload fileName data :
  flag_blind (handleFileDownload params fileName data).
Proof.
  intros b e st. rewrite !handleFileDownload_run. reflexivity.
Qed.

Lemma flag_blind_dispatch io message topic :
  flag_blind (dispatch TOPIC params io message topic).
Proof.
  unfold dispatch. destruct (switch_topic TOPIC topic).
  - apply flag_blind_get_state; [reflexivity|]. intros st.
    destruct (authToken st) as [token|];
      [|apply flag_blind_update; reflexivity].
    destruct (truthy (JStr token)) eqn:Htok;
      [|apply flag_blind_update; reflexivity].
    apply flag_blind_sendTokenToWebView. intros ->. discriminate.
  - apply flag_blind_update. reflexivity.
  - repeat (apply flag_blind_bind; [apply flag_blind_data_field | intros ?]).
    apply flag_blind_handleSaveLocalData.
  - repeat (apply flag_blind_bind; [apply flag_blind_data_field | intros ?]).
    apply flag_blind_handleGetLocalData.
  - repeat (apply flag_blind_bind; [apply flag_blind_data_field | intros ?]).
    apply flag_blind_handleAlert.
  - repeat (apply flag_blind_bind; [apply flag_blind_data_field | intros ?]).
    apply flag_blind_emit.
  - repeat (apply flag_blind_bind; [apply flag_blind_data_field | intros ?]).
    apply flag_blind_handleFileDownload.
  - apply flag_blind_sendResponseToWeb.
  - apply flag_blind_emit.
Qed.

Lemma flag_blind_handleMessage io event :
  flag_blind (handleMessage TOPIC params io event).
Proof.
  unfold handleMessage. apply flag_blind_try_catch.
  - apply flag_blind_bind.
    + unfold JSON_parse. destruct (nativeEvent_data event);
        [apply flag_blind_throw | apply flag_blind_ret].
    + intros message. apply flag_blind_bind; [apply flag_blind_read|].
      intros topic. destruct (negb (truthy topic));
        [apply flag_blind_emit | apply flag_blind_dispatch].
  - intros x. apply flag_blind_emit.
Qed.

Lemma reflag_same st : reflag (isLoading st) (hasError st) st = st.
Proof. destruct st; reflexivity. Qed.

(** A flag-blind computation leaves the flags as they were. *)
Lemma flag_blind_keeps {A} (m : M A) st :
  flag_blind m ->
  isLoading (final (m st)) = isLoading st
  /\ hasError (final (m st)) = hasError st.
Proof.
  intros Hm. specialize (Hm (isLoading st) (hasError st) st).
  rewrite reflag_same in Hm.
  split; rewrite Hm at 1; reflexivity.
Qed.

(** *** The lifecycle flags *)

Lemma reloadWebView_run st :
  reloadWebView st =
  Run (Returned tt) (setIsLoading true (setHasError false st))
      (if webviewRef st then [WebViewReload] else []).
Proof.
  unfold reloadWebView. rewrite !bind_update, bind_get_state.
  cbn [webviewRef setIsLoading setHasError].
  destruct (webviewRef st); reflexivity.
Qed.

Lemma reloadWebView_flags st :
  (hasError (final (reloadWebView st)), isLoading (final (reloadWebView st)))
  = (false, true).
Proof. rewrite reloadWebView_run. reflexivity. Qed.

(** The flags after each handler. *)
Lemma handle_flags i st :
  (hasError (final (handle TOPIC params i st)),
   isLoading (final (handle TOPIC params i st))) =
  match i with
  | OnLoadStart => (hasError st, true)
  | OnLoadEnd => (hasError st, false)
  | OnError _ => (true, false)
  | PressRetry => (false, true)
  | PressSetUrl url =>
      if truthy (JStr url) then (false, true) else (hasError st, isLoading st)
  | _ => (hasError st, isLoading st)
  end.
Proof.
  destruct i; cbn [handle]; try reflexivity.
  - destruct reply; [rewrite fetchAuthToken_issued|]; reflexivity.
  - destruct html; reflexivity.
  - destruct (flag_blind_keeps _ st (flag_blind_handleMessage io event))
      as [-> ->]. reflexivity.
  - apply reloadWebView_flags.
  - unfold developerSetUrl. destruct (truthy (JStr url)); [|reflexivity].
    rewrite bind_update. rewrite reloadWebView_flags. reflexivity.
  - unfold handleQrScanResult.
    erewrite bind_returned by apply sendResponseToWeb_run. reflexivity.
  - unfold pressButton. destruct (onPress b) as [[m d]|]; [|reflexivity].
    rewrite sendResponseToWeb_run. reflexivity.
Qed.

Lemma next_flags i st :
  hasError (next TOPIC params i st) = hasError (final (handle TOPIC params i st))
  /\ isLoading (next TOPIC params i st)
     = isLoading (final (handle TOPIC params i st))
  /\ webviewRef (next TOPIC params i st)
     = rendersWebView params (final (handle TOPIC params i st)).
Proof. repeat split. Qed.

(** In every reachable state the error screen and the loading indicator
    exclude each other, and a mounted [WebView] excludes the error
    screen. *)
Lemma reachable_flags st :
  reachable TOPIC params st ->
  hasError st && isLoading st = false
  /\ webviewRef st && hasError st = false.
Proof.
  induction 1 as [store | i st Hreach [IH1 IH2] Hen].
  - split; [reflexivity|]. unfold initial, commit, rendersWebView. cbn.
    rewrite andb_false_r. reflexivity.
  - destruct (next_flags i st) as (He & Hl & Hr).
    rewrite He, Hl, Hr. pose proof (handle_flags i st) as Hf.
    split.
    + destruct i; cbn [enabled] in Hen;
        try match type of Hf with
            | context [truthy (JStr ?u)] => destruct (truthy (JStr u))
            end;
        apply pair_equal_spec in Hf; destruct Hf as [H1 H2]; rewrite H1, H2;
        first [ assumption
              | reflexivity
              | apply andb_false_r
              | rewrite Hen in IH2; cbn in IH2; rewrite IH2; reflexivity ].
    + unfold rendersWebView.
      destruct (hasError (final (handle TOPIC params i st))); [|apply andb_false_r].
      reflexivity.
Qed.

(** C6. In every reachable state, the retry action leads to [Loading],
    never directly to [Ready]: [reloadWebView] clears the error flag and
    sets the loading flag in one step.  The two flags are never both set,
    neither in the state itself nor after any transition out of it, so a
    transition that sets the loading flag always ends with the error flag
    cleared. *)
Theorem retry_reenters_loading (st : State) :
  reachable TOPIC params st ->
  lifecycle (next TOPIC params PressRetry st) = Loading
  /\ hasError (final (reloadWebView st)) = false
  /\ isLoading (final (reloadWebView st)) = true
  /\ hasError st && isLoading st = false
  /\ forall i,
       enabled params i st
       && hasError (next TOPIC params i st)
       && isLoading (next TOPIC params i st) = false.
Proof.
  intros Hreach.
  split; [unfold next; cbn [handle]; rewrite reloadWebView_run; reflexivity|].
  split; [rewrite reloadWebView_run; reflexivity|].
  split; [rewrite reloadWebView_run; reflexivity|].
  split.
  - apply reachable_flags; assumption.
  - intros i. destruct (enabled params i st) eqn:Hen; [|reflexivity].
    cbn [andb]. apply (reachable_flags (next TOPIC params i st)).
    constructor; assumption.
Qed.

(** C7 (as the code has it). The message handler does not consult the
    lifecycle state and there is no buffer: a message that arrives is
    handled at once, and with the lifecycle flags overwritten in any way
    the handler returns the same result and produces the same trace, and
    leaves the flags untouched.  A message can arrive only while a WebView
    is mounted, which excludes the [Errored] state. *)
Theorem dispatch_ignores_lifecycle
  (io : IoOutcome) (event : WebViewMessageEvent) (st : State) :
  reachable TOPIC params st ->
  enabled params (OnMessage io event) st = true ->
  let r := handleMessage TOPIC params io event st in
  lifecycle st <> Errored
  /\ lifecycle (final r) = lifecycle st
  /\ forall loading error,
       handleMessage TOPIC params io event (reflag loading error st) =
       Run (result r) (reflag loading error (final r)) (trace r).
Proof.
  intros Hreach Hen r. cbn [enabled] in Hen.
  destruct (reachable_flags st Hreach) as [_ Hmounted].
  rewrite Hen in Hmounted. cbn in Hmounted.
  destruct (flag_blind_keeps _ st (flag_blind_handleMessage io event))
    as [Hl He].
  repeat split.
  - unfold lifecycle. rewrite Hmounted. destruct (isLoading st); discriminate.
  - subst r. unfold lifecycle. rewrite Hl, He. reflexivity.
  - intros loading error. apply flag_blind_handleMessage.
Qed.

(** *** Storage reads *)


(** *** The unsolicited token push *)

Lemma delivered_replicate surface n s :
  flat_map (runScript surface) (replicate n s) =
  if defines surface (method s)
  then replicate n (method s, argument s)
  else [].
Proof.
  induction n as [|n IH]; cbn [replicate flat_map].
  - destruct (defines surface (method s)); reflexivity.
  - rewrite IH. unfold runScript, defines. destruct surface as [callbacks|];
      [|reflexivity].
    destruct (existsb (String.eqb (method s)) callbacks); reflexivity.
Qed.

(** C10 (as the code has it). A successful credential fetch returns and
    injects [resolveToken] once, and once more for each queued request,
    provided a WebView is mounted; when none is mounted, nothing is
    injected.  With no request pending and a WebView mounted, that is one
    invocation no TOKEN message asked for.  An injected script invokes its
    callback if and only if the page has defined it: otherwise it does
    nothing. *)
Theorem token_pushed_when_mounted (now : Z) (st : State) (surface : Surface) :
  let token := "auth_token_" +:+ pretty now in
  let r := fetchAuthToken (Issued now) st in
  result r = Returned tt
  /\ authToken (final r) = Some token
  /\ outbound (trace r) =
     (if webviewRef st
      then replicate (S (length (pendingTokenRequests st))) (resolveToken token)
      else [])
  /\ delivered surface (trace r) =
     (if webviewRef st && defines surface "resolveToken"
      then replicate (S (length (pendingTokenRequests st)))
             ("resolveToken", JStr token)
      else [])
  /\ forall s,
       runScript surface s =
       if defines surface (method s) then [(method s, argument s)] else [].
Proof.
  intros token r. subst r. rewrite fetchAuthToken_issued.
  cbn [result final trace]. unfold delivered.
  rewrite outbound_broadcast.
  repeat split.
  - destruct (webviewRef st); [|reflexivity].
    rewrite delivered_replicate. cbn [andb method argument resolveToken].
    destruct (defines surface "resolveToken"); reflexivity.
  - intros s. unfold runScript, defines. destruct surface; reflexivity.
Qed.

End Properties.

(** ** Storage namespaces *)

Lemma length_append s t :
  String.length (s +:+ t) = String.length s + String.length t.
Proof.
  induction s as [|c s IH]; [reflexivity|].
  change (S (String.length (s +:+ t)) = S (String.length s + String.length t)).
  rewrite IH. reflexivity.
Qed.

Lemma append_inj_r t : forall s1 s2, s1 +:+ t = s2 +:+ t -> s1 = s2.
Proof.
  induction s1 as [|c1 s1 IH]; destruct s2 as [|c2 s2]; intros H.
  - reflexivity.
  - apply (f_equal String.length) in H. rewrite !length_append in H.
    cbn [String.length] in H. lia.
  - apply (f_equal String.length) in H. rewrite !length_append in H.
    cbn [String.length] in H. lia.
  - change (String c1 (s1 +:+ t) = String c2 (s2 +:+ t)) in H.
    injection H as -> H. f_equal. apply IH. assumption.
Qed.

(** Under one and the same logical key, two distinct identities use two
    distinct storage keys. *)
Lemma storageKey_same_key_distinct (a b key : string) :
  a <> b ->
  storageKey (params_of a) key <> storageKey (params_of b) key.
Proof.
  unfold storageKey. cbn [appId params_of param_to_string]. intros Hab H.
  apply String.app_inj in H. apply append_inj_r in H. contradiction.
Qed.

(** So a save under [key] by one identity is not seen by a read of the
    same [key] by another. *)
Lemma save_unseen_under_same_key (a b key : string) (value : js) st :
  a <> b ->
  asyncStorage (final (handleSaveLocalData (params_of a) IoDone (JStr key) value st))
    !! storageKey (params_of b) key
  = asyncStorage st !! storageKey (params_of b) key.
Proof.
  intros Hab. unfold handleSaveLocalData, try_catch, AsyncStorage_setItem.
  destruct value; rewrite ?bind_update, ?bind_throw, ?sendResponseToWeb_run;
    cbn [result final trace]; rewrite ?sendResponseToWeb_run;
    cbn [result final trace setStorage asyncStorage to_string];
    try reflexivity.
  apply lookup_insert_ne. apply storageKey_same_key_distinct. assumption.
Qed.

(** C8. The storage key splices the identity and the logical key around an
    underscore that either of them may contain, so two distinct identities
    can reach the same key: what ["public"] saves under ["info_theme"] is
    what ["public_info"] reads under ["theme"]. *)
Theorem namespaces_overlap :
  let saved :=
    final (handleMessage spec_topics (params_of "public") IoDone
             (save_request "info_theme" "dark")
             (session_ready "public" ∅)) in
  let read :=
    handleMessage spec_topics (params_of "public_info") IoDone
      (get_request "theme")
      (session_ready "public_info" (asyncStorage saved)) in
  "public" <> "public_info"
  /\ storageKey (params_of "public") "info_theme"
     = storageKey (params_of "public_info") "theme"
  /\ asyncStorage (session_ready "public_info" ∅)
       !! storageKey (params_of "public_info") "theme" = None
  /\ outbound (trace read) =
     [GuardedCall "resolveGetLocalData" (JObj [("value", JStr "dark")])].
Proof.
  cbv zeta. split; [discriminate|].
  split; [reflexivity|]. split; [reflexivity|].
  vm_compute. reflexivity.
Qed.

(** ** File capability *)

(** C5. The payslip viewer has no file capability.  Its download request
    is rejected before anything else happens; its upload request is
    resolved all the same, for the upload arm never looks at the
    capability. *)
Theorem upload_ignores_file_capability :
  allowsFileAccess (appConfig payslip_params) = false
  /\ handleMessage spec_topics payslip_params IoDone download_request
       payslip_ready
     = Run (Returned tt) payslip_ready
         [InjectJavaScript
            (GuardedCall "rejectDownload"
               (JStr "File access not permitted for this app"))]
  /\ handleMessage spec_topics payslip_params IoDone upload_request
       payslip_ready
     = Run (Returned tt) payslip_ready
         [InjectJavaScript
            (GuardedCall "resolveUpload" (JObj [("success", JBool true)]))].
Proof. repeat split; vm_compute; reflexivity. Qed.

(** ** The properties at work on the sample sessions *)



(** Text that is not JSON, received by the ready payslip session. *)
Lemma malformed_envelope_dropped_witness :
  let event := {| nativeEvent_data := NotJSON "{topic:" |} in
  let st := payslip_ready in
  (topic_case spec_topics event = None
   \/ topic_case spec_topics event = Some CaseDefault)
  /\ (let r := handleMessage spec_topics payslip_params IoDone event st in
      result r = Returned tt
      /\ outbound (trace r) = []
      /\ forallb is_console (trace r) = true
      /\ final r = st
      /\ forall io' event',
           handleMessage spec_topics payslip_params io' event' (final r) =
           handleMessage spec_topics payslip_params io' event' st).
Proof.
  intros event st.
  assert (H : topic_case spec_topics event = None
              \/ topic_case spec_topics event = Some CaseDefault)
    by (left; reflexivity).
  split; [exact H|].
  exact (malformed_envelope_dropped spec_topics payslip_params IoDone event st H).
Defined.

(** A save request without [data], received by the ready payslip session:
    no reply at all. *)
Lemma bare_save_request_unanswered :
  let r := handleMessage spec_topics payslip_params IoDone save_request_bare
             payslip_ready in
  topic_case spec_topics save_request_bare = Some CaseSaveLocalData
  /\ webviewRef payslip_ready = true
  /\ result r = Returned tt
  /\ outbound (trace r) = []
  /\ ~ (exists s, outbound (trace r) = [s]).
Proof.
  cbv zeta. repeat split; try (vm_compute; reflexivity).
  intros [s Hs]. vm_compute in Hs. discriminate.
Qed.

(** A save request with its payload, received by the ready payslip
    session: one reply. *)
Lemma request_reply_count_witness :
  let event := save_request "theme" "dark" in
  let st := payslip_ready in
  topic_case spec_topics event = Some CaseSaveLocalData
  /\ webviewRef st = true
  /\ (let r := handleMessage spec_topics payslip_params IoDone event st in
      result r = Returned tt
      /\ exists s, outbound (trace r) = [s]
           /\ (method s = "resolveSaveLocalData"
               \/ method s = "rejectSaveLocalData")).
Proof.
  intros event st.
  assert (H1 : topic_case spec_topics event = Some CaseSaveLocalData)
    by reflexivity.
  assert (H2 : webviewRef st = true) by reflexivity.
  split; [exact H1|]. split; [exact H2|].
  exact (request_reply_count spec_topics payslip_params IoDone event st
           CaseSaveLocalData H1 H2).
Defined.

Lemma payslip_loading_reachable :
  reachable spec_topics payslip_params payslip_loading.
Proof.
  unfold payslip_loading. apply reachable_next; [apply reachable_initial|].
  reflexivity.
Defined.

Lemma payslip_errored_reachable :
  reachable spec_topics payslip_params payslip_errored.
Proof.
  unfold payslip_errored. apply reachable_next;
    [apply payslip_loading_reachable | reflexivity].
Defined.

(** The payslip session after a failed load. *)
Lemma retry_reenters_loading_witness :
  let st := payslip_errored in
  reachable spec_topics payslip_params st
  /\ lifecycle st = Errored
  /\ (lifecycle (next spec_topics payslip_params PressRetry st) = Loading
      /\ hasError (final (reloadWebView st)) = false
      /\ isLoading (final (reloadWebView st)) = true
      /\ hasError st && isLoading st = false
      /\ forall i,
           enabled payslip_params i st
           && hasError (next spec_topics payslip_params i st)
           && isLoading (next spec_topics payslip_params i st) = false).
Proof.
  intros st. split; [exact payslip_errored_reachable|].
  split; [reflexivity|].
  exact (retry_reenters_loading spec_topics payslip_params st
           payslip_errored_reachable).
Defined.

(** An upload request received while the payslip content is still
    loading is answered at once. *)
Lemma message_handled_while_loading :
  let r := handleMessage spec_topics payslip_params IoDone upload_request
             payslip_loading in
  lifecycle payslip_loading = Loading
  /\ enabled payslip_params (OnMessage IoDone upload_request) payslip_loading
     = true
  /\ outbound (trace r) =
     [GuardedCall "resolveUpload" (JObj [("success", JBool true)])]
  /\ ~ (outbound (trace r) = []).
Proof.
  cbv zeta. repeat split; try (vm_compute; reflexivity).
  vm_compute. discriminate.
Qed.

Lemma dispatch_ignores_lifecycle_witness :
  let st := payslip_loading in
  reachable spec_topics payslip_params st
  /\ enabled payslip_params (OnMessage IoDone upload_request) st = true
  /\ (let r := handleMessage spec_topics payslip_params IoDone upload_request st in
      lifecycle st <> Errored
      /\ lifecycle (final r) = lifecycle st
      /\ forall loading error,
           handleMessage spec_topics payslip_params IoDone upload_request
             (reflag loading error st) =
           Run (result r) (reflag loading error (final r)) (trace r)).
Proof.
  intros st.
  assert (H : enabled payslip_params (OnMessage IoDone upload_request) st = true)
    by reflexivity.
  split; [exact payslip_loading_reachable|]. split; [exact H|].
  exact (dispatch_ignores_lifecycle spec_topics payslip_params IoDone
           upload_request st payslip_loading_reachable H).
Defined.

(** The payslip session as the home screen opens it: the token is fetched
    on mount, before any WebView exists, and nothing reaches the page. *)
Lemma token_fetched_on_mount_not_pushed :
  let st := initial payslip_params ∅ in
  let r := fetchAuthToken (Issued 1700000000000) st in
  enabled payslip_params (EffectFetchAuthToken (Issued 1700000000000)) st = true
  /\ webviewRef st = false
  /\ result r = Returned tt
  /\ authToken (final r) = Some "auth_token_1700000000000"
  /\ outbound (trace r) = []
  /\ ~ (exists s, In s (outbound (trace r)) /\ method s = "resolveToken").
Proof.
  cbv zeta. repeat split; try (vm_compute; reflexivity).
  intros [s [Hin _]]. vm_compute in Hin. exact Hin.
Qed.

(** ** Further properties of the viewer *)

Section Further.

Variable TOPIC : TopicTable.
Variable params : MicroAppParams.

(** *** Storage *)

Lemma handleSaveLocalData_stored key value st :
  handleSaveLocalData params IoDone key (JStr value) st =
  Run (Returned tt)
      (setStorage (<[storageKey params (to_string key) := value]>
                     (asyncStorage st)) st)
      (if webviewRef st
       then [InjectJavaScript (GuardedCall "resolveSaveLocalData" JUndefined)]
       else []).
Proof.
  unfold handleSaveLocalData, try_catch, AsyncStorage_setItem.
  rewrite bind_update, sendResponseToWeb_run. cbn [result final trace webviewRef setStorage].
  destruct (webviewRef st); reflexivity.
Qed.

Lemma handleSaveLocalData_failed e key value st :
  handleSaveLocalData params (IoFailed e) key value st =
  Run (Returned tt) st
      (if webviewRef st
       then [InjectJavaScript
               (GuardedCall "rejectSaveLocalData"
                  (JStr (message_or "Storage error" e)))]
       else []).
Proof.
  unfold handleSaveLocalData, try_catch, AsyncStorage_setItem.
  rewrite bind_throw. cbn [result final trace].
  rewrite sendResponseToWeb_run. destruct (webviewRef st); reflexivity.
Qed.

Lemma handleSaveLocalData_refused key value st :
  match value with JStr _ => False | _ => True end ->
  handleSaveLocalData params IoDone key value st =
  Run (Returned tt) st
      (if webviewRef st
       then [InjectJavaScript
               (GuardedCall "rejectSaveLocalData"
                  (JStr "Values must be strings"))]
       else []).
Proof.
  intros Hvalue. unfold handleSaveLocalData, try_catch, AsyncStorage_setItem.
  destruct value; try contradiction;
    rewrite bind_throw; cbn [result final trace];
    rewrite sendResponseToWeb_run; destruct (webviewRef st); reflexivity.
Qed.





(** *** What a handler keeps *)

Lemma keeps_ret {A} I (a : A) : keeps I (ret a).
Proof. intros st H. exact H. Qed.

Lemma keeps_throw {A} I (x : thrown) : keeps I (@throw A x).
Proof. intros st H. exact H. Qed.

Lemma keeps_emit I (x : Event) : keeps I (emit x).
Proof. intros st H. exact H. Qed.

Lemma keeps_update I (h : State -> State) :
  (forall st, I st -> I (h st)) -> keeps I (update h).
Proof. intros Hh st H. apply Hh. exact H. Qed.

Lemma keeps_bind {A B} I (m : M A) (f : A -> M B) :
  keeps I m -> (forall a, keeps I (f a)) -> keeps I (bind m f).
Proof.
  intros Hm Hf st H. unfold bind. specialize (Hm st H).
  destruct (m st) as [[a|x|] st' t]; cbn [result final trace] in *;
    [apply Hf; exact Hm | exact Hm | exact Hm].
Qed.

Lemma keeps_try_catch {A} I (body : M A) (handler : thrown -> M A) :
  keeps I body -> (forall x, keeps I (handler x)) ->
  keeps I (try_catch body handler).
Proof.
  intros Hm Hf st H. unfold try_catch. specialize (Hm st H).
  destruct (body st) as [[a|x|] st' t]; cbn [result final trace] in *;
    [exact Hm | apply Hf; exact Hm | exact Hm].
Qed.

Lemma keeps_get_state {B} I (f : State -> M B) :
  (forall s, keeps I (f s)) -> keeps I (bind get_state f).
Proof. intros Hf st H. rewrite bind_get_state. apply Hf. exact H. Qed.

Lemma keeps_sendResponseToWeb I method data :
  keeps I (sendResponseToWeb method data).
Proof. intros st H. rewrite sendResponseToWeb_run. exact H. Qed.

Lemma keeps_data_field I message name : keeps I (data_field message name).
Proof.
  unfold data_field, read. apply keeps_bind.
  - destruct (get_prop message "data"); [apply keeps_throw | apply keeps_ret].
  - intros data. destruct (get_prop data name);
      [apply keeps_throw | apply keeps_ret].
Qed.

Lemma keeps_handleGetLocalData I io key :
  keeps I (handleGetLocalData params io key).
Proof. intros st H. rewrite handleGetLocalData_run. exact H. Qed.

Lemma keeps_handleFileDownload I fileName data :
  keeps I (handleFileDownload params fileName data).
Proof. intros st H. rewrite handleFileDownload_run. exact H. Qed.

(** The message handler keeps whatever opening the scanner, the TOKEN arm
    and a save keep: no other arm writes the state. *)
Lemma keeps_handleMessage I io event :
  (forall st, I st -> I (setScannerVisible true st)) ->
  (forall message topic,
     switch_topic TOPIC topic = CaseToken ->
     keeps I (dispatch TOPIC params io message topic)) ->
  (forall key value, keeps I (handleSaveLocalData params io key value)) ->
  keeps I (handleMessage TOPIC params io event).
Proof.
  intros Hscan Htoken Hsave. unfold handleMessage.
  apply keeps_try_catch; [|intros x; apply keeps_emit].
  apply keeps_bind.
  { unfold JSON_parse. destruct (nativeEvent_data event);
      [apply keeps_throw | apply keeps_ret]. }
  intros message. apply keeps_bind.
  { unfold read. destruct (get_prop message "topic");
      [apply keeps_throw | apply keeps_ret]. }
  intros topic. destruct (negb (truthy topic)); [apply keeps_emit|].
  destruct (switch_topic TOPIC topic) eqn:Hsw;
    try (apply Htoken; exact Hsw);
    unfold dispatch; rewrite Hsw.
  - apply keeps_update. exact Hscan.
  - apply keeps_bind; [apply keeps_data_field | intros key].
    apply keeps_bind; [apply keeps_data_field | intros value].
    apply Hsave.
  - apply keeps_bind; [apply keeps_data_field | intros key].
    apply keeps_handleGetLocalData.
  - repeat (apply keeps_bind; [apply keeps_data_field | intros ?]).
    apply keeps_emit.
  - repeat (apply keeps_bind; [apply keeps_data_field | intros ?]).
    apply keeps_emit.
  - repeat (apply keeps_bind; [apply keeps_data_field | intros ?]).
    apply keeps_handleFileDownload.
  - apply keeps_sendResponseToWeb.
  - apply keeps_emit.
Qed.

(** The TOKEN arm keeps whatever the two queue updates keep. *)
Lemma keeps_token_arm I io message topic :
  (forall st, I st -> I (setPending [] st)) ->
  (forall st, I st -> I (pushPending st)) ->
  switch_topic TOPIC topic = CaseToken ->
  keeps I (dispatch TOPIC params io message topic).
Proof.
  intros Hdrain Hpush Hsw st H. unfold dispatch. rewrite Hsw, bind_get_state.
  destruct (authToken st) as [token|]; [|apply Hpush; exact H].
  destruct (truthy (JStr token)) eqn:Htok; [|apply Hpush; exact H].
  rewrite sendTokenToWebView_run by (intros ->; discriminate).
  apply Hdrain. exact H.
Qed.

(** X4. Whatever message arrives, the handler leaves untouched every
    entry of the device store whose key is not a storage key of the
    session's own identity: a micro-app can write under its
    [microapp_<appId>_] prefix only. *)
Theorem foreign_keys_untouched
  (io : IoOutcome) (event : WebViewMessageEvent) (st : State) (k : string) :
  (forall key, k <> storageKey params key) ->
  asyncStorage (final (handleMessage TOPIC params io event st)) !! k
  = asyncStorage st !! k.
Proof.
  intros Hforeign.
  apply (keeps_handleMessage
           (fun s => asyncStorage s !! k = asyncStorage st !! k) io event);
    [| | |reflexivity].
  - intros s H. exact H.
  - intros message topic Hsw. apply keeps_token_arm; try exact Hsw;
      intros s H; exact H.
  - intros key value s H.
    destruct io as [|e]; [|rewrite handleSaveLocalData_failed; exact H].
    destruct value;
      try (rewrite handleSaveLocalData_refused by exact I; exact H).
    rewrite handleSaveLocalData_stored. cbn [final asyncStorage setStorage].
    rewrite lookup_insert_ne; [exact H|]. intros Heq. exact (Hforeign _ (eq_sym Heq)).
Qed.

(** *** The token broker *)

(** Only the token fetch and the message handler touch the broker and the
    store. *)
Lemma handle_frame i st :
  match i with
  | EffectFetchAuthToken _ | OnMessage _ _ => True
  | _ =>
      authToken (final (handle TOPIC params i st)) = authToken st
      /\ pendingTokenRequests (final (handle TOPIC params i st))
         = pendingTokenRequests st
      /\ asyncStorage (final (handle TOPIC params i st)) = asyncStorage st
  end.
Proof.
  destruct i; cbn [handle]; try exact I; try (repeat split; fail).
  - destruct html; repeat split.
  - rewrite reloadWebView_run. repeat split.
  - unfold developerSetUrl. destruct (truthy (JStr url)); [|repeat split].
    rewrite bind_update, reloadWebView_run. repeat split.
  - unfold handleQrScanResult.
    erewrite bind_returned by apply sendResponseToWeb_run. repeat split.
  - unfold pressButton. destruct (onPress b) as [[m d]|]; [|repeat split].
    rewrite sendResponseToWeb_run. repeat split.
Qed.

Lemma broker_ok_frame st st' :
  authToken st' = authToken st ->
  pendingTokenRequests st' = pendingTokenRequests st ->
  broker_ok st -> broker_ok st'.
Proof. unfold broker_ok. intros -> ->. exact (fun H => H). Qed.

Lemma handleMessage_broker_ok io event :
  keeps broker_ok (handleMessage TOPIC params io event).
Proof.
  apply keeps_handleMessage.
  - intros st H. exact H.
  - intros message topic Hsw st H. unfold dispatch.
    rewrite Hsw, bind_get_state.
    destruct H as [Hnone | (now & Htok & Hq)].
    + rewrite Hnone. left. exact Hnone.
    + rewrite Htok.
      change (truthy (JStr ("auth_token_" +:+ pretty now))) with true.
      cbv iota.
      rewrite sendTokenToWebView_run by discriminate.
      right. exists now. split; [exact Htok | reflexivity].
  - intros key value st H.
    destruct io as [|e]; [|rewrite handleSaveLocalData_failed; exact H].
    destruct value;
      try (rewrite handleSaveLocalData_refused by exact I; exact H).
    rewrite handleSaveLocalData_stored. exact H.
Qed.

(** X5. In every reachable state the token broker is in order: either no
    token is held, or the token held is one issued by [fetchAuthToken]
    (never the empty string) and no request is waiting in the queue. *)
Theorem broker_in_order (st : State) :
  reachable TOPIC params st -> broker_ok st.
Proof.
  induction 1 as [store | i st Hreach IH Hen].
  - left. reflexivity.
  - unfold next.
    apply (broker_ok_frame (final (handle TOPIC params i st)));
      [reflexivity | reflexivity |].
    pose proof (handle_frame i st) as Hframe.
    destruct i; cbn [handle] in *;
      try (destruct Hframe as (Ha & Hq & _);
           apply (broker_ok_frame st); assumption).
    + destruct reply as [now|e].
      * rewrite fetchAuthToken_issued. right. exists now.
        split; reflexivity.
      * exact IH.
    + apply handleMessage_broker_ok. exact IH.
Qed.

(** X6. While a token is held and nobody is waiting, every TOKEN request
    is answered at once: a run of such requests injects [resolveToken]
    with the held token once per request, queues nothing and leaves the
    state as it was. *)
Theorem held_token_answers_requests
  (inbound : list (IoOutcome * WebViewMessageEvent)) (st : State)
  (token : string) :
  authToken st = Some token ->
  token <> EmptyString ->
  pendingTokenRequests st = [] ->
  webviewRef st = true ->
  Forall (fun m => topic_case TOPIC (snd m) = Some CaseToken) inbound ->
  handleMessages TOPIC params inbound st =
  Run (Returned tt) st
      (map (fun _ => InjectJavaScript (resolveToken token)) inbound).
Proof.
  intros Htok Hne Hq Href Hall.
  induction Hall as [|[io event] rest Hm _ IH]; [reflexivity|].
  cbn [snd] in Hm. cbn [handleMessages map].
  assert (Hone : handleMessage TOPIC params io event st =
                 Run (Returned tt) st [InjectJavaScript (resolveToken token)]).
  { destruct (topic_case_Some _ _ _ Hm) as (fields & Hd & Ht & Hsw).
    rewrite (handleMessage_dispatch _ _ _ _ _ _ Hd Ht).
    apply try_catch_returned. unfold dispatch.
    rewrite Hsw, bind_get_state, Htok, (truthy_nonempty _ Hne).
    rewrite sendTokenToWebView_run by exact Hne.
    rewrite Hq, Href. destruct st; cbn in Hq; subst; reflexivity. }
  erewrite bind_returned by exact Hone. rewrite IH. reflexivity.
Qed.

Lemma handleMessage_no_token io event :
  keeps (fun st => authToken st = None) (handleMessage TOPIC params io event).
Proof.
  apply keeps_handleMessage.
  - intros st H. exact H.
  - intros message topic Hsw. apply keeps_token_arm; try exact Hsw;
      intros st H; exact H.
  - intros key value st H.
    destruct io as [|e]; [|rewrite handleSaveLocalData_failed; exact H].
    destruct value;
      try (rewrite handleSaveLocalData_refused by exact I; exact H).
    rewrite handleSaveLocalData_stored. exact H.
Qed.

(** X7. A session whose mount effect does not fetch (the identity contains
    ["public"], or the exchanged token or the client id is missing) never
    holds a token: in every reachable state [authToken] is null, and a
    TOKEN request only joins the queue, with nothing sent to the page. *)
Theorem unauthenticated_session_only_queues (st : State) :
  fetchesOnMount params = false ->
  reachable TOPIC params st ->
  authToken st = None
  /\ forall io event,
       topic_case TOPIC event = Some CaseToken ->
       handleMessage TOPIC params io event st
       = Run (Returned tt) (pushPending st) [].
Proof.
  intros Hguard Hreach.
  assert (Hnone : authToken st = None).
  { induction Hreach as [store | i st Hreach IH Hen]; [reflexivity|].
    unfold next. change (authToken (final (handle TOPIC params i st)) = None).
    pose proof (handle_frame i st) as Hframe.
    destruct i; cbn [handle] in *;
      try (destruct Hframe as (Ha & _); rewrite Ha; exact IH).
    - cbn [enabled] in Hen. unfold fetchesOnMount in Hguard. congruence.
    - apply handleMessage_no_token. exact IH. }
  split; [exact Hnone|].
  intros io event Hcase. apply handleMessage_token_queued; [exact Hcase|].
  unfold holdsToken. rewrite Hnone. reflexivity.
Qed.

(** *** What is on screen *)

Lemma renderWebView_local st :
  param_truthy (appId params) = true ->
  webViewUri params = Some "local" ->
  renderWebView params st =
  if String.eqb (webUri st) "ERROR" then FileNotFound
  else if truthy (JStr (webUri st)) then LocalWebView
  else NotAvailable.
Proof.
  intros Hid Huri. unfold renderWebView. rewrite Hid, Huri.
  rewrite (bool_decide_eq_true_2 _ eq_refl).
  destruct (String.eqb (webUri st) "ERROR"); [reflexivity|].
  cbn [andb negb]. destruct (truthy (JStr (webUri st))); [reflexivity|].
  rewrite !andb_false_r. reflexivity.
Qed.

Lemma renderWebView_unlocated st :
  param_truthy (webViewUri params) = false ->
  renderWebView params st =
  if String.eqb (webUri st) "ERROR" then FileNotFound else NotAvailable.
Proof.
  intros Huri. unfold renderWebView. rewrite Huri.
  assert (Hlocal : bool_decide (webViewUri params = Some "local") = false).
  { apply bool_decide_eq_false_2. intros H. rewrite H in Huri. discriminate. }
  rewrite Hlocal. destruct (String.eqb (webUri st) "ERROR"); [reflexivity|].
  rewrite !andb_false_r. reflexivity.
Qed.

(** Every reachable state is a committed one: the ref tells whether a
    WebView is rendered. *)
Lemma reachable_committed st :
  reachable TOPIC params st -> webviewRef st = rendersWebView params st.
Proof. destruct 1; reflexivity. Qed.

(** X8. A session opened without a [webViewUri] never shows its content:
    the mount effect does load the local content of the identity, but no
    branch of [renderWebView] renders it, so in every reachable state no
    WebView is mounted, nothing is loaded and no bridge message can
    arrive. *)
Theorem unlocated_session_never_mounts (st : State) :
  param_truthy (webViewUri params) = false ->
  reachable TOPIC params st ->
  wantsLocalContent params = param_truthy (appId params)
  /\ webviewRef st = false
  /\ shownSource params st = None
  /\ forall io event, enabled params (OnMessage io event) st = false.
Proof.
  intros Huri Hreach.
  assert (Href : webviewRef st = false).
  { rewrite (reachable_committed _ Hreach). unfold rendersWebView.
    rewrite (renderWebView_unlocated _ Huri).
    destruct (String.eqb (webUri st) "ERROR"); apply andb_false_r. }
  split.
  { unfold wantsLocalContent. rewrite Huri. cbn [negb orb].
    apply andb_true_r. }
  split; [exact Href|]. split; [|intros io event; exact Href].
  unfold shownSource, webViewSource. rewrite (renderWebView_unlocated _ Huri).
  destruct (hasError st); [reflexivity|].
  destruct (String.eqb (webUri st) "ERROR"); reflexivity.
Qed.

(** X9. In a developer session opened on a remote URL, the URL typed into
    the "Set URL" prompt is stored and restarts loading, but it is never
    what the WebView loads: the WebView keeps the URL of the route
    parameter.  Typing ["ERROR"] even replaces the WebView by the
    file-not-found screen. *)
Theorem developer_url_not_loaded (uri url : string) (st : State) :
  isDeveloper (appConfig params) = true ->
  webViewUri params = Some uri ->
  uri <> EmptyString ->
  uri <> "local" ->
  url <> EmptyString ->
  let st' := next TOPIC params (PressSetUrl url) st in
  enabled params (PressSetUrl url) st = true
  /\ webUri st' = url
  /\ lifecycle st' = Loading
  /\ shownSource params st' =
     if String.eqb url "ERROR" then None else Some (SourceUri uri).
Proof.
  intros Hdev Huri Hne Hlocal Hurl st'.
  assert (Hfinal : final (handle TOPIC params (PressSetUrl url) st)
                   = setIsLoading true (setHasError false (setWebUri url st))).
  { cbn [handle]. unfold developerSetUrl.
    rewrite (truthy_nonempty _ Hurl), bind_update, reloadWebView_run.
    reflexivity. }
  subst st'. unfold next. rewrite Hfinal.
  split; [exact Hdev|]. split; [reflexivity|]. split; [reflexivity|].
  unfold shownSource, webViewSource, renderWebView.
  cbn [commit hasError webUri setWebviewRef setIsLoading setHasError setWebUri].
  rewrite Hdev, Huri.
  assert (Hl : bool_decide (Some uri = Some "local") = false).
  { apply bool_decide_eq_false_2. congruence. }
  assert (Ht : param_truthy (Some uri) = true).
  { cbn. destruct uri; [congruence | reflexivity]. }
  rewrite Hl, Ht. destruct (String.eqb url "ERROR"); [reflexivity|].
  rewrite !andb_false_r. reflexivity.
Qed.

(** X10. The retry button never calls [reload()]: while the error screen
    is shown no WebView is mounted, so [webviewRef.current] is null and
    [reloadWebView] only resets the two flags.  The content comes back
    because clearing the error flag mounts a fresh WebView, provided
    [renderWebView] has one to render. *)
Theorem retry_remounts_without_reload (st : State) :
  reachable TOPIC params st ->
  hasError st = true ->
  enabled params PressRetry st = true
  /\ reloadWebView st =
     Run (Returned tt) (setIsLoading true (setHasError false st)) []
  /\ webviewRef (next TOPIC params PressRetry st) =
     match renderWebView params st with
     | LocalWebView | DeveloperWebView | RemoteWebView => true
     | FileNotFound | NotAvailable => false
     end.
Proof.
  intros Hreach Herr.
  destruct (reachable_flags _ _ st Hreach) as [_ Hmounted].
  rewrite Herr, andb_true_r in Hmounted.
  split; [exact Herr|]. split.
  - rewrite reloadWebView_run, Hmounted. reflexivity.
  - unfold next. cbn [handle]. rewrite reloadWebView_run. reflexivity.
Qed.

(** X14. Local content is shown unless it collides with one of the two
    sentinels of [webUri]: in a local session the loaded [index.html]
    becomes the source of the WebView, except that content equal to
    ["ERROR"] is taken for the failure marker (file-not-found screen) and
    empty content for "not loaded yet" (not-available screen); a failed
    load gives the file-not-found screen. *)
Theorem local_content_sentinels (html : option string) (st : State) :
  param_truthy (appId params) = true ->
  webViewUri params = Some "local" ->
  hasError st = false ->
  let st' := next TOPIC params (EffectLocalContent html) st in
  enabled params (EffectLocalContent html) st = true
  /\ shownSource params st' =
     match html with
     | Some content =>
         if String.eqb content "ERROR" then None
         else if String.eqb content EmptyString then None
         else Some (SourceHtml content)
     | None => None
     end
  /\ webviewRef st' =
     match shownSource params st' with Some _ => true | None => false end.
Proof.
  intros Hid Huri Herr st'.
  assert (Hshown : forall s,
    hasError s = false ->
    shownSource params s =
    if String.eqb (webUri s) "ERROR" then None
    else if String.eqb (webUri s) EmptyString then None
    else Some (SourceHtml (webUri s))).
  { intros s Hs. unfold shownSource, webViewSource.
    rewrite Hs, (renderWebView_local s Hid Huri). cbn [truthy].
    destruct (String.eqb (webUri s) "ERROR"); [reflexivity|].
    destruct (String.eqb (webUri s) EmptyString); reflexivity. }
  split.
  { cbn [enabled]. unfold wantsLocalContent. rewrite Hid, Huri.
    rewrite (bool_decide_eq_true_2 _ eq_refl). apply orb_true_r. }
  assert (Hwebview : webviewRef st' =
            match shownSource params st' with Some _ => true | None => false end).
  { subst st'. unfold next, commit. cbn [webviewRef setWebviewRef].
    unfold rendersWebView, shownSource, webViewSource.
    cbn [hasError setWebviewRef].
    assert (Hrender : forall b s, renderWebView params (setWebviewRef b s)
                                  = renderWebView params s) by reflexivity.
    rewrite Hrender.
    destruct (hasError (final (handle TOPIC params (EffectLocalContent html) st)));
      [reflexivity|].
    destruct (renderWebView params
                (final (handle TOPIC params (EffectLocalContent html) st)));
      reflexivity. }
  split; [|exact Hwebview].
  subst st'. rewrite Hshown.
  - destruct html as [content|]; reflexivity.
  - destruct html; exact Herr.
Qed.

(** *** Alerts and the scanner *)

(** X11. An ALERT message is fire-and-forget: with an object as payload
    the handler shows one native alert with the title and the message of
    the payload and a single button, labelled ["OK"] unless the payload
    names a [buttonText]; it sends no reply and leaves the state as it
    was. *)
Theorem alert_fire_and_forget
  (io : IoOutcome) (event : WebViewMessageEvent)
  (fields payload : list (string * js)) (st : State) :
  nativeEvent_data event = JSONText (JObj fields) ->
  topic_case TOPIC event = Some CaseAlert ->
  lookup_field "data" fields = JObj payload ->
  handleMessage TOPIC params io event st =
  Run (Returned tt) st
      [AlertAlert (lookup_field "title" payload)
         (lookup_field "message" payload)
         [ {| text := default_to "OK" (lookup_field "buttonText" payload);
              style := StyleDefault;
              onPress := None |} ]].
Proof.
  intros Hd Hcase Hpayload.
  unfold topic_case in Hcase. rewrite Hd in Hcase. cbn [get_prop] in Hcase.
  destruct (truthy (lookup_field "topic" fields)) eqn:Ht; [|discriminate].
  injection Hcase as Hsw.
  rewrite (handleMessage_dispatch _ _ _ _ _ _ Hd Ht).
  unfold dispatch. rewrite Hsw. apply try_catch_returned.
  assert (Hfield : forall name s,
            data_field (JObj fields) name s =
            Run (Returned (lookup_field name payload)) s []).
  { intros name s. rewrite data_field_run, Hpayload. reflexivity. }
  erewrite bind_returned by apply Hfield.
  erewrite (bind_returned _ _ st) by apply Hfield.
  erewrite (bind_returned _ _ st) by apply Hfield.
  reflexivity.
Qed.

(** X13. A QR request is answered at most once.  The request opens the
    scanner and sends nothing; a scan sends one [resolveQrCode] with the
    scanned data and hides the scanner, and closing the scanner hides it
    and sends nothing at all; either way no further scan can be
    delivered until the scanner is opened again. *)
Theorem scanner_answers_at_most_once
  (io : IoOutcome) (event : WebViewMessageEvent) (qrData : js) (st : State) :
  topic_case TOPIC event = Some CaseQrRequest ->
  webviewRef st = true ->
  let opened := final (handleMessage TOPIC params io event st) in
  let scanned := handle TOPIC params (OnScan qrData) opened in
  let closed := handle TOPIC params PressCloseScanner opened in
  trace (handleMessage TOPIC params io event st) = []
  /\ enabled params (OnScan qrData) opened = true
  /\ trace scanned =
     [InjectJavaScript (GuardedCall "resolveQrCode" (via_json qrData))]
  /\ trace closed = []
  /\ forall qrData',
       enabled params (OnScan qrData') (final scanned) = false
       /\ enabled params (OnScan qrData') (final closed) = false.
Proof.
  intros Hcase Href opened scanned closed.
  destruct (topic_case_Some _ _ _ Hcase) as (fields & Hd & Ht & Hsw).
  assert (Hopen : handleMessage TOPIC params io event st =
                  Run (Returned tt) (setScannerVisible true st) []).
  { rewrite (handleMessage_dispatch _ _ _ _ _ _ Hd Ht).
    unfold dispatch. rewrite Hsw. reflexivity. }
  subst scanned closed opened. rewrite Hopen. cbn [final trace handle].
  assert (Hscan : handleQrScanResult qrData (setScannerVisible true st) =
                  Run (Returned tt) (setScannerVisible false st)
                      [InjectJavaScript
                         (GuardedCall "resolveQrCode" (via_json qrData))]).
  { unfold handleQrScanResult.
    erewrite bind_returned by apply sendResponseToWeb_run.
    cbn [webviewRef setScannerVisible]. rewrite Href. reflexivity. }
  rewrite Hscan. repeat split.
Qed.

End Further.

(** ** A session opened from the home screen *)

(** X12. Any available service whose identity is not empty and does not
    contain ["public"] gets its token, though not unasked: pressing its
    card opens the viewer on local content; the token is fetched on
    mount, when no WebView exists yet, so nothing is sent; once the
    content is on screen, a TOKEN request of the page is answered at once
    with the token fetched on mount. *)
Theorem home_session_token_flow (TOPIC : TopicTable)
  (app : HomeScreen.MicroApp) (now : Z) (html : string)
  (io : IoOutcome) (event : WebViewMessageEvent)
  (store : gmap string string) :
  HomeScreen.working app = true ->
  HomeScreen.id app <> EmptyString ->
  includes (HomeScreen.id app) "public" = false ->
  html <> EmptyString ->
  html <> "ERROR" ->
  topic_case TOPIC event = Some CaseToken ->
  exists p,
    HomeScreen.handlePress app = HomeScreen.RouterPush "/micro-app" p
    /\ let st0 := initial p store in
       let st1 := next TOPIC p (EffectFetchAuthToken (Issued now)) st0 in
       let st2 := next TOPIC p (EffectLocalContent (Some html)) st1 in
       enabled p (EffectFetchAuthToken (Issued now)) st0 = true
       /\ trace (handle TOPIC p (EffectFetchAuthToken (Issued now)) st0) = []
       /\ enabled p (OnMessage io event) st2 = true
       /\ trace (handleMessage TOPIC p io event st2) =
          [InjectJavaScript (resolveToken ("auth_token_" +:+ pretty now))].
Proof.
  intros Hworking Hid Hpublic Hhtml Herror Hcase.
  eexists. split.
  { unfold HomeScreen.handlePress. rewrite Hworking. reflexivity. }
  set (p := {| appId := Some (HomeScreen.id app);
               appName := Some (HomeScreen.name app);
               webViewUri := Some "local";
               clientId := Some (HomeScreen.id app);
               exchangedToken := Some "demo_token_123" |}).
  assert (Htruthy : param_truthy (Some (HomeScreen.id app)) = true).
  { cbn. destruct (HomeScreen.id app); [congruence | reflexivity]. }
  assert (Hhtml' : String.eqb html EmptyString = false).
  { destruct html; [congruence | reflexivity]. }
  assert (Herror' : String.eqb html "ERROR" = false).
  { apply String.eqb_neq. exact Herror. }
  cbv zeta.
  assert (Hst0 : webviewRef (initial p store) = false).
  { unfold initial, commit, rendersWebView. cbn [webviewRef setWebviewRef].
    rewrite (renderWebView_local p _ Htruthy eq_refl). reflexivity. }
  split.
  { cbn [enabled]. unfold appConfig. cbn [requiresAuth appId p opt_includes
      exchangedToken clientId]. rewrite Hpublic, Htruthy. reflexivity. }
  split.
  { cbn [handle]. rewrite fetchAuthToken_issued, Hst0. reflexivity. }
  set (st1 := next TOPIC p (EffectFetchAuthToken (Issued now)) (initial p store)).
  set (st2 := next TOPIC p (EffectLocalContent (Some html)) st1).
  assert (Hst2 : webviewRef st2 = true
                 /\ authToken st2 = Some ("auth_token_" +:+ pretty now)
                 /\ pendingTokenRequests st2 = []).
  { subst st2 st1. unfold next at 1. cbn [handle].
    unfold next. cbn [handle]. rewrite fetchAuthToken_issued.
    cbn [final update commit webviewRef setWebviewRef authToken setWebUri
         pendingTokenRequests setPending setAuthToken].
    split; [|split; reflexivity].
    unfold rendersWebView.
    rewrite (renderWebView_local p _ Htruthy eq_refl).
    cbn [webUri setWebUri hasError setWebviewRef setPending setAuthToken
         initial commit truthy].
    rewrite Herror', Hhtml'. reflexivity. }
  destruct Hst2 as (Href & Htok & Hq).
  split; [exact Href|].
  assert (Hone : handleMessage TOPIC p io event st2 =
                 Run (Returned tt) st2
                     [InjectJavaScript
                        (resolveToken ("auth_token_" +:+ pretty now))]).
  { destruct (topic_case_Some _ _ _ Hcase) as (fields & Hd & Ht & Hsw).
    rewrite (handleMessage_dispatch TOPIC p _ _ _ _ Hd Ht).
    apply try_catch_returned. unfold dispatch.
    rewrite Hsw, bind_get_state, Htok.
    change (truthy (JStr ("auth_token_" +:+ pretty now))) with true. cbv iota.
    rewrite sendTokenToWebView_run by discriminate.
    rewrite Hq, Href. destruct st2; cbn in Hq; subst; reflexivity. }
  rewrite Hone. reflexivity.
Qed.


(** ** The further properties at work on the sample sessions *)




(** The entry under which the host persists its own state is out of
    reach of the payslip viewer. *)
Lemma foreign_keys_untouched_witness :
  let k := "persist:root" in
  let event := save_request "theme" "dark" in
  let st := payslip_ready in
  (forall key, k <> storageKey payslip_params key)
  /\ asyncStorage (final (handleMessage spec_topics payslip_params IoDone event st))
       !! k
     = asyncStorage st !! k.
Proof.
  intros k event st.
  assert (H : forall key, k <> storageKey payslip_params key).
  { intros key Heq. vm_compute in Heq. discriminate. }
  split; [exact H|].
  exact (foreign_keys_untouched spec_topics payslip_params IoDone event st k H).
Defined.

Lemma payslip_waiting_reachable :
  reachable spec_topics payslip_params payslip_waiting.
Proof.
  unfold payslip_waiting. apply reachable_next;
    [apply payslip_loading_reachable | reflexivity].
Defined.

(** The waiting payslip session after its token has arrived. *)
Lemma broker_in_order_witness :
  let st := next spec_topics payslip_params
              (EffectFetchAuthToken (Issued 1700000000000)) payslip_waiting in
  reachable spec_topics payslip_params st
  /\ broker_ok st.
Proof.
  intros st.
  assert (H : reachable spec_topics payslip_params st).
  { apply reachable_next; [apply payslip_waiting_reachable | reflexivity]. }
  split; [exact H|].
  exact (broker_in_order spec_topics payslip_params st H).
Defined.

Lemma held_token_answers_requests_witness :
  let st := next spec_topics payslip_params
              (EffectFetchAuthToken (Issued 1700000000000)) payslip_ready in
  let token := "auth_token_1700000000000" in
  let inbound := [(IoDone, token_request); (IoDone, token_request)] in
  authToken st = Some token
  /\ token <> EmptyString
  /\ pendingTokenRequests st = []
  /\ webviewRef st = true
  /\ Forall (fun m => topic_case spec_topics (snd m) = Some CaseToken) inbound
  /\ handleMessages spec_topics payslip_params inbound st =
     Run (Returned tt) st
         (map (fun _ => InjectJavaScript (resolveToken token)) inbound).
Proof.
  intros st token inbound.
  assert (H1 : authToken st = Some token) by (vm_compute; reflexivity).
  assert (H2 : token <> EmptyString) by discriminate.
  assert (H3 : pendingTokenRequests st = []) by reflexivity.
  assert (H4 : webviewRef st = true) by reflexivity.
  assert (H5 : Forall (fun m => topic_case spec_topics (snd m) = Some CaseToken)
                 inbound) by (repeat constructor).
  split; [exact H1|]. split; [exact H2|]. split; [exact H3|].
  split; [exact H4|]. split; [exact H5|].
  exact (held_token_answers_requests spec_topics payslip_params inbound st
           token H1 H2 H3 H4 H5).
Defined.

Lemma public_session_reachable :
  reachable spec_topics (params_of "public_info")
    (session_ready "public_info" ∅).
Proof.
  unfold session_ready.
  apply reachable_next; [|reflexivity].
  apply reachable_next; [apply reachable_initial | reflexivity].
Defined.

(** The session of the identity ["public_info"]. *)
Lemma unauthenticated_session_only_queues_witness :
  let p := params_of "public_info" in
  let st := session_ready "public_info" ∅ in
  fetchesOnMount p = false
  /\ reachable spec_topics p st
  /\ (authToken st = None
      /\ forall io event,
           topic_case spec_topics event = Some CaseToken ->
           handleMessage spec_topics p io event st
           = Run (Returned tt) (pushPending st) []).
Proof.
  intros p st.
  assert (H : fetchesOnMount p = false) by reflexivity.
  split; [exact H|]. split; [exact public_session_reachable|].
  exact (unauthenticated_session_only_queues spec_topics p st H
           public_session_reachable).
Defined.

Lemma unlocated_session_reachable :
  reachable spec_topics unlocated_params
    (next spec_topics unlocated_params
       (EffectLocalContent (Some "<html></html>"))
       (initial unlocated_params ∅)).
Proof.
  apply reachable_next; [apply reachable_initial | reflexivity].
Defined.

(** The payslip viewer opened without [webViewUri], its content loaded. *)
Lemma unlocated_session_never_mounts_witness :
  let p := unlocated_params in
  let st := next spec_topics p (EffectLocalContent (Some "<html></html>"))
              (initial p ∅) in
  param_truthy (webViewUri p) = false
  /\ reachable spec_topics p st
  /\ (wantsLocalContent p = param_truthy (appId p)
      /\ webviewRef st = false
      /\ shownSource p st = None
      /\ forall io event, enabled p (OnMessage io event) st = false).
Proof.
  intros p st.
  assert (H : param_truthy (webViewUri p) = false) by reflexivity.
  split; [exact H|]. split; [exact unlocated_session_reachable|].
  exact (unlocated_session_never_mounts spec_topics p st H
           unlocated_session_reachable).
Defined.

(** The developer session of the documentation, pointed at another
    port. *)
Lemma developer_url_not_loaded_witness :
  let p := developer_params in
  let uri := "http://localhost:3000" in
  let url := "http://localhost:8080" in
  let st := initial p ∅ in
  isDeveloper (appConfig p) = true
  /\ webViewUri p = Some uri
  /\ uri <> EmptyString
  /\ uri <> "local"
  /\ url <> EmptyString
  /\ (let st' := next spec_topics p (PressSetUrl url) st in
      enabled p (PressSetUrl url) st = true
      /\ webUri st' = url
      /\ lifecycle st' = Loading
      /\ shownSource p st' =
         if String.eqb url "ERROR" then None else Some (SourceUri uri)).
Proof.
  intros p uri url st.
  assert (H1 : isDeveloper (appConfig p) = true) by reflexivity.
  assert (H2 : webViewUri p = Some uri) by reflexivity.
  assert (H3 : uri <> EmptyString) by discriminate.
  assert (H4 : uri <> "local") by discriminate.
  assert (H5 : url <> EmptyString) by discriminate.
  split; [exact H1|]. split; [exact H2|]. split; [exact H3|].
  split; [exact H4|]. split; [exact H5|].
  exact (developer_url_not_loaded spec_topics p uri url st H1 H2 H3 H4 H5).
Defined.

(** The payslip session after a failed load. *)
Lemma retry_remounts_without_reload_witness :
  let st := payslip_errored in
  reachable spec_topics payslip_params st
  /\ hasError st = true
  /\ (enabled payslip_params PressRetry st = true
      /\ reloadWebView st =
         Run (Returned tt) (setIsLoading true (setHasError false st)) []
      /\ webviewRef (next spec_topics payslip_params PressRetry st) =
         match renderWebView payslip_params st with
         | LocalWebView | DeveloperWebView | RemoteWebView => true
         | FileNotFound | NotAvailable => false
         end).
Proof.
  intros st.
  assert (H : hasError st = true) by reflexivity.
  split; [exact payslip_errored_reachable|]. split; [exact H|].
  exact (retry_remounts_without_reload spec_topics payslip_params st
           payslip_errored_reachable H).
Defined.

(** A payslip bundle whose [index.html] reads ["ERROR"]. *)
Lemma local_content_sentinels_witness :
  let html := Some "ERROR" in
  let st := initial payslip_params ∅ in
  param_truthy (appId payslip_params) = true
  /\ webViewUri payslip_params = Some "local"
  /\ hasError st = false
  /\ (let st' := next spec_topics payslip_params (EffectLocalContent html) st in
      enabled payslip_params (EffectLocalContent html) st = true
      /\ shownSource payslip_params st' =
         match html with
         | Some content =>
             if String.eqb content "ERROR" then None
             else if String.eqb content EmptyString then None
             else Some (SourceHtml content)
         | None => None
         end
      /\ webviewRef st' =
         match shownSource payslip_params st' with
         | Some _ => true
         | None => false
         end).
Proof.
  intros html st.
  assert (H1 : param_truthy (appId payslip_params) = true) by reflexivity.
  assert (H2 : webViewUri payslip_params = Some "local") by reflexivity.
  assert (H3 : hasError st = false) by reflexivity.
  split; [exact H1|]. split; [exact H2|]. split; [exact H3|].
  exact (local_content_sentinels spec_topics payslip_params html st H1 H2 H3).
Defined.

Lemma alert_fire_and_forget_witness :
  let payload := [("title", JStr "T"); ("message", JStr "M")] in
  let fields := [("topic", JStr "ALERT"); ("data", JObj payload)] in
  let st := payslip_ready in
  nativeEvent_data alert_request = JSONText (JObj fields)
  /\ topic_case spec_topics alert_request = Some CaseAlert
  /\ lookup_field "data" fields = JObj payload
  /\ handleMessage spec_topics payslip_params IoDone alert_request st =
     Run (Returned tt) st
         [AlertAlert (lookup_field "title" payload)
            (lookup_field "message" payload)
            [ {| text := default_to "OK" (lookup_field "buttonText" payload);
                 style := StyleDefault;
                 onPress := None |} ]].
Proof.
  intros payload fields st.
  assert (H1 : nativeEvent_data alert_request = JSONText (JObj fields))
    by reflexivity.
  assert (H2 : topic_case spec_topics alert_request = Some CaseAlert)
    by reflexivity.
  assert (H3 : lookup_field "data" fields = JObj payload) by reflexivity.
  split; [exact H1|]. split; [exact H2|]. split; [exact H3|].
  exact (alert_fire_and_forget spec_topics payslip_params IoDone alert_request
           fields payload st H1 H2 H3).
Defined.

Lemma scanner_answers_at_most_once_witness :
  let qrData := JStr "otpauth://totp/demo" in
  let st := payslip_ready in
  topic_case spec_topics qr_request = Some CaseQrRequest
  /\ webviewRef st = true
  /\ (let opened :=
        final (handleMessage spec_topics payslip_params IoDone qr_request st) in
      let scanned := handle spec_topics payslip_params (OnScan qrData) opened in
      let closed := handle spec_topics payslip_params PressCloseScanner opened in
      trace (handleMessage spec_topics payslip_params IoDone qr_request st) = []
      /\ enabled payslip_params (OnScan qrData) opened = true
      /\ trace scanned =
         [InjectJavaScript (GuardedCall "resolveQrCode" (via_json qrData))]
      /\ trace closed = []
      /\ forall qrData',
           enabled payslip_params (OnScan qrData') (final scanned) = false
           /\ enabled payslip_params (OnScan qrData') (final closed) = false).
Proof.
  intros qrData st.
  assert (H1 : topic_case spec_topics qr_request = Some CaseQrRequest)
    by reflexivity.
  assert (H2 : webviewRef st = true) by reflexivity.
  split; [exact H1|]. split; [exact H2|].
  exact (scanner_answers_at_most_once spec_topics payslip_params IoDone
           qr_request qrData st H1 H2).
Defined.

(** The payslip viewer, the one available service of the home screen. *)
Lemma home_session_token_flow_witness :
  let app := {| HomeScreen.id := "payslip-viewer";
                HomeScreen.name := "Payslip Viewer";
                HomeScreen.description := "View your monthly payslips";
                HomeScreen.icon := "document-text-outline";
                HomeScreen.color := "#2563EB";
                HomeScreen.working := true |} in
  let now := 1700000000000%Z in
  let html := "<html></html>" in
  In app HomeScreen.MICRO_APPS
  /\ HomeScreen.working app = true
  /\ HomeScreen.id app <> EmptyString
  /\ includes (HomeScreen.id app) "public" = false
  /\ html <> EmptyString
  /\ html <> "ERROR"
  /\ topic_case spec_topics token_request = Some CaseToken
  /\ exists p,
       HomeScreen.handlePress app = HomeScreen.RouterPush "/micro-app" p
       /\ let st0 := initial p ∅ in
          let st1 := next spec_topics p (EffectFetchAuthToken (Issued now)) st0 in
          let st2 := next spec_topics p (EffectLocalContent (Some html)) st1 in
          enabled p (EffectFetchAuthToken (Issued now)) st0 = true
          /\ trace (handle spec_topics p (EffectFetchAuthToken (Issued now)) st0)
             = []
          /\ enabled p (OnMessage IoDone token_request) st2 = true
          /\ trace (handleMessage spec_topics p IoDone token_request st2) =
             [InjectJavaScript (resolveToken ("auth_token_" +:+ pretty now))].
Proof.
  intros app now html.
  assert (H1 : HomeScreen.working app = true) by reflexivity.
  assert (H2 : HomeScreen.id app <> EmptyString) by discriminate.
  assert (H3 : includes (HomeScreen.id app) "public" = false) by reflexivity.
  assert (H4 : html <> EmptyString) by discriminate.
  assert (H5 : html <> "ERROR") by discriminate.
  assert (H6 : topic_case spec_topics token_request = Some CaseToken)
    by reflexivity.
  split; [left; reflexivity|].
  split; [exact H1|]. split; [exact H2|]. split; [exact H3|].
  split; [exact H4|]. split; [exact H5|]. split; [exact H6|].
  exact (home_session_token_flow spec_topics app now html IoDone token_request
           ∅ H1 H2 H3 H4 H5 H6).
Defined.
